(** * Beat-synchronised video cutter: [process_files] of [tt.py]

    A shallow embedding of the one pipeline of the repository.  Python
    floats (seconds, energies, volume factors) are read as exact
    rationals [Q]; every comparison the program makes ([<=], [<], [==],
    [max], sorting) is then the comparison of [Q].  Two places where
    the rounding of the floats decides are kept apart from this
    reading: the threshold of line 42 is a function of the maximum of
    which nothing is assumed, and the duration of a clip cut by
    [subclip] is computed on binary64 in the module [Binary64].  The
    library calls of the program (numpy, scipy, librosa, moviepy,
    tkinter) are embedded by what they return or raise on the values
    the program hands them. *)

From Stdlib Require Import QArith Qminmax Lqa Lia ZArith Arith Bool.
From Stdlib Require Import String DecimalString List Sorted Permutation.
From Stdlib Require PrimFloat.
Import ListNotations.

Set Warnings "-register-all,-inexact-float".
Open Scope Q_scope.

(** ** Comparisons of Python floats *)

Definition Qltb (a b : Q) : bool := negb (Qle_bool b a).

(** Python's built-in [max(a, b)]: the first argument unless the second
    is strictly larger. *)
Definition py_max (a b : Q) : Q := if Qltb a b then b else a.

(** ** numpy *)

Module Np.

(** [np.arange(n)] *)
Definition arange (n : nat) : list nat := seq 0 n.

(** [np.max(a)]: [None] stands for the [ValueError] numpy raises on a
    zero-size array. *)
Definition max (a : list Q) : option Q :=
  match a with
  | [] => None
  | x :: r => Some (fold_left py_max r x)
  end.

(** [np.concatenate] of one-dimensional arrays. *)
Definition concatenate (parts : list (list Q)) : list Q := concat parts.

Fixpoint insert (a : Q) (l : list Q) : list Q :=
  match l with
  | [] => [a]
  | b :: r => if Qle_bool a b then a :: l else b :: insert a r
  end.

(** [np.sort(a)]: a new array with the elements of [a] in ascending
    order. *)
Fixpoint sort (a : list Q) : list Q :=
  match a with
  | [] => []
  | x :: r => insert x (sort r)
  end.

(** Fancy indexing [a[idx]] with an integer index array; [None] stands
    for the [IndexError] of an index out of range. *)
Fixpoint take (a : list Q) (idx : list nat) : option (list Q) :=
  match idx with
  | [] => Some []
  | i :: r =>
      match nth_error a i, take a r with
      | Some v, Some vs => Some (v :: vs)
      | _, _ => None
      end
  end.

End Np.

(** ** scipy.signal.find_peaks *)

Module Scipy.

(** Inner loop of [_local_maxima_1d]: advance [i_ahead] while it is
    below [i_max] and the sample equals the plateau value [xi]. *)
Fixpoint plateau_end (x : list Q) (i_max : nat) (xi : Q)
         (fuel i_ahead : nat) : nat :=
  match fuel with
  | O => i_ahead
  | S fuel' =>
      if (i_ahead <? i_max)%nat && Qeq_bool (nth i_ahead x 0) xi
      then plateau_end x i_max xi fuel' (S i_ahead)
      else i_ahead
  end.

(** Outer loop of [_local_maxima_1d], from index [i]: a sample that
    rises above its left neighbour opens a plateau; the plateau is a
    peak when the sample after it is lower, and the reported index is
    the midpoint of its edges. *)
Fixpoint local_maxima_from (x : list Q) (i_max fuel i : nat) : list nat :=
  match fuel with
  | O => []
  | S fuel' =>
      if (i <? i_max)%nat then
        if Qltb (nth (i - 1) x 0) (nth i x 0) then
          let i_ahead := plateau_end x i_max (nth i x 0) i_max (i + 1) in
          if Qltb (nth i_ahead x 0) (nth i x 0) then
            ((i + (i_ahead - 1)) / 2)%nat
              :: local_maxima_from x i_max fuel' (i_ahead + 1)
          else local_maxima_from x i_max fuel' (i + 1)
        else local_maxima_from x i_max fuel' (i + 1)
      else []
  end.

(** [_local_maxima_1d(x)]: the scan starts at index 1 and stops before
    the last sample. *)
Definition local_maxima (x : list Q) : list nat :=
  local_maxima_from x (length x - 1) (length x) 1.

(** [find_peaks(x, height=h)[0]]: the local maxima whose value is at
    least [h]. *)
Definition find_peaks (x : list Q) (height : Q) : list nat :=
  filter (fun p => Qle_bool height (nth p x 0)) (local_maxima x).

End Scipy.

(** ** librosa *)

Module Librosa.

(** Default hop length of [librosa.stft] and [librosa.frames_to_time]. *)
Definition hop_length : nat := 512.

(** [librosa.get_duration(y=y, sr=sr)] for a signal of [n] samples. *)
Definition get_duration (n : nat) (sr : positive) : Q := Z.of_nat n # sr.

(** Time of frame [f]: its first sample over the sampling rate. *)
Definition frame_time (sr : positive) (f : nat) : Q :=
  Z.of_nat (f * hop_length) # sr.

(** [librosa.frames_to_time(frames, sr=sr)] *)
Definition frames_to_time (frames : list nat) (sr : positive) : list Q :=
  map (frame_time sr) frames.

(** Number of frames [librosa.stft] yields (centered) for [n] samples. *)
Definition n_frames (n : nat) : nat := (1 + n / hop_length)%nat.

End Librosa.

(** ** Exceptions *)

(** A Python exception, by the text [str(e)] gives. *)
Definition exn := string.

(** ** Cut times: lines 38-48 of [process_files]

    [height m] stands for the product [np.max(bass_energy) * 0.7] that
    numpy computes from the maximum [m]: a float product, rounded in
    the precision of the array, of which nothing is assumed here. *)

Definition cut_times_of (peak_times : list Q) (song_duration : Q) : list Q :=
  Np.sort (Np.concatenate [[0]; peak_times; [song_duration]]).

Definition detect_cut_times (height : Q -> Q) (sr : positive)
           (song_duration : Q) (bass_energy : list Q) : exn + list Q :=
  let times := Librosa.frames_to_time (Np.arange (length bass_energy)) sr in
  match Np.max bass_energy with
  | None =>
      inl "zero-size array to reduction operation maximum which has no identity"%string
  | Some m =>
      let peaks := Scipy.find_peaks bass_energy (height m) in
      match Np.take times peaks with
      | None => inl "index out of bounds"%string
      | Some peak_times => inr (cut_times_of peak_times song_duration)
      end
  end.

(** ** moviepy clips

    A clip is the expression that built it; its attributes ([duration],
    [start], [end], [audio]) are computed from the expression the way
    moviepy 1.x sets them. *)

Module Moviepy.

Inductive aclip : Type :=
| AudioFile (path : string) (duration : Q)
| VideoTrack (path : string) (duration : Q)
| ASubclip (a : aclip) (t_start t_end : Q)
| ASetStart (a : aclip) (t : Q)
| AVolumex (a : aclip) (factor : Q)
| AComposite (clips : list aclip).

(** Python's [max] of a non-empty list. *)
Definition max_list (l : list Q) : Q :=
  match l with
  | [] => 0
  | x :: r => fold_left py_max r x
  end.

Fixpoint astart (a : aclip) : Q :=
  match a with
  | AudioFile _ _ | VideoTrack _ _ => 0
  | ASubclip a _ _ => astart a
  | ASetStart _ t => t
  | AVolumex a _ => astart a
  | AComposite _ => 0
  end.

Fixpoint aduration (a : aclip) : Q :=
  match a with
  | AudioFile _ d | VideoTrack _ d => d
  | ASubclip _ t_start t_end => t_end - t_start
  | ASetStart a _ => aduration a
  | AVolumex a _ => aduration a
  | AComposite clips =>
      max_list (map (fun c => astart c + aduration c) clips)
  end.

(** [clip.end]: every constructor keeps [end = start + duration]. *)
Definition aend (a : aclip) : Q := astart a + aduration a.

Inductive vclip : Type :=
| VideoFile (path : string) (duration fps : Q) (has_audio : bool)
| VSubclip (v : vclip) (t_start t_end : Q)
| VConcat (clips : list vclip)
| VSetAudio (v : vclip) (a : aclip).

Fixpoint vduration (v : vclip) : Q :=
  match v with
  | VideoFile _ d _ _ => d
  | VSubclip _ t_start t_end => t_end - t_start
  | VConcat clips => fold_left Qplus (map vduration clips) 0
  | VSetAudio v _ => vduration v
  end.

Fixpoint vfps (v : vclip) : Q :=
  match v with
  | VideoFile _ _ fps _ => fps
  | VSubclip v _ _ => vfps v
  | VConcat clips => max_list (map vfps clips)
  | VSetAudio v _ => vfps v
  end.

(** Audio tracks of the clips of a concatenation, each moved to the
    start time [t] of its clip ([tt] is the running sum of durations). *)
Fixpoint audio_t (auds : list (option aclip * Q)) (t : Q) : list aclip :=
  match auds with
  | [] => []
  | (Some a, d) :: r => ASetStart a t :: audio_t r (t + d)
  | (None, d) :: r => audio_t r (t + d)
  end.

(** [clip.audio]; [None] is Python's [None]. *)
Fixpoint vaudio (v : vclip) : option aclip :=
  match v with
  | VideoFile path d _ has_audio =>
      if has_audio then Some (VideoTrack path d) else None
  | VSubclip v t_start t_end =>
      option_map (fun a => ASubclip a t_start t_end) (vaudio v)
  | VConcat clips =>
      match audio_t (map (fun c => (vaudio c, vduration c)) clips) 0 with
      | [] => None
      | auds => Some (AComposite auds)
      end
  | VSetAudio _ a => Some a
  end.

(** [Clip.subclip(t_start, t_end)] on a video clip: negative times
    count from the end, and a start past the end is refused.  The new
    clip reads its first frame to set its size; the read is taken to
    return a frame. *)
Definition subclip (v : vclip) (t_start t_end : Q) : exn + vclip :=
  let t_start := if Qltb t_start 0 then vduration v + t_start else t_start in
  if Qltb (vduration v) t_start then
    inl "t_start should be smaller than the clip's duration."%string
  else
    let t_end := if Qltb t_end 0 then vduration v + t_end else t_end in
    inr (VSubclip v t_start t_end).

(** [Clip.subclip(t_start, t_end)] on an audio clip. *)
Definition asubclip (a : aclip) (t_start t_end : Q) : exn + aclip :=
  let t_start := if Qltb t_start 0 then aduration a + t_start else t_start in
  if Qltb (aduration a) t_start then
    inl "t_start should be smaller than the clip's duration."%string
  else
    let t_end := if Qltb t_end 0 then aduration a + t_end else t_end in
    inr (ASubclip a t_start t_end).

(** [concatenate_videoclips(clips, method='compose')]: the maximum of
    the clip sizes is taken first, which fails on an empty list. *)
Definition concatenate_videoclips (clips : list vclip) : exn + vclip :=
  match clips with
  | [] => inl "max() arg is an empty sequence"%string
  | _ => inr (VConcat clips)
  end.

(** [CompositeAudioClip(clips)] *)
Definition CompositeAudioClip (clips : list aclip) : exn + aclip :=
  match clips with
  | [] => inl "max() arg is an empty sequence"%string
  | _ => inr (AComposite clips)
  end.

End Moviepy.
Import Moviepy.

(** ** The world of a run *)

(** What a run does that can be seen from outside, in order.
    [WriteVideoFile] is a call of [write_videofile] that returned: the
    file is complete.  [WriteFailed] is a call of [write_videofile]
    that raised: what the encoder had put at the path by then is the
    library's matter and is not told here. *)
Inductive event : Type :=
| Progress (message : string)
| ShowInfo (title message : string)
| ShowError (title message : string)
| WriteVideoFile (clip : vclip) (path : string) (fps : Q)
                 (audio_codec : string) (threads : nat)
| WriteFailed (clip : vclip) (path : string).

(** The state a run threads: the events so far and the number of draws
    taken from the random generator. *)
Record world : Type := { trace : list event; draws : nat }.

Definition emit (e : event) (w : world) : world :=
  {| trace := trace w ++ [e]; draws := draws w |}.

(** What the libraries and the caller answer during a run.  A call
    either returns or raises ([inl] and [Some] carry the exception).
    - [librosa_load path]: the number of samples of [y] and [sr];
    - [stft_bass_energy path]: the curve [bass_energy] of lines 25-35,
      the magnitudes of [librosa.stft(y)] summed over the bins of
      20-250 Hz, one value per frame;
    - [peak_height m]: the float product [np.max(bass_energy) * 0.7]
      of line 42, as numpy rounds it, for the maximum [m];
    - [progress_callback message]: the callback handed to
      [process_files];
    - [VideoFileClip path]: duration, fps and presence of an audio
      track of the opened video;
    - [AudioFileClip path]: duration of the opened audio file;
    - [random_random k]: the [k]-th draw of [random.random()];
    - [write_videofile clip path]: encoding and writing the file;
    - [messagebox_showinfo title message]: the success dialog. *)
Record Env : Type := {
  librosa_load : string -> exn + (nat * positive);
  stft_bass_energy : string -> exn + list Q;
  peak_height : Q -> Q;
  progress_callback : string -> option exn;
  VideoFileClip : string -> exn + (Q * Q * bool);
  AudioFileClip : string -> exn + Q;
  random_random : nat -> Q;
  write_videofile : vclip -> string -> option exn;
  messagebox_showinfo : string -> string -> option exn
}.

(** ** Computations that may raise *)

Definition M (A : Type) : Type := world -> (exn + A) * world.

Definition ret {A} (a : A) : M A := fun w => (inr a, w).

Definition raise {A} (e : exn) : M A := fun w => (inl e, w).

Definition bind {A B} (c : M A) (k : A -> M B) : M B :=
  fun w =>
    match c w with
    | (inl e, w') => (inl e, w')
    | (inr a, w') => k a w'
    end.

Definition lift {A} (r : exn + A) : M A :=
  match r with
  | inl e => raise e
  | inr a => ret a
  end.

Declare Scope run_scope.
Delimit Scope run_scope with run.
Notation "x <- c ;; k" := (bind c (fun x => k))
  (at level 100, c at next level, right associativity) : run_scope.
Notation "c ;;; k" := (bind c (fun _ => k))
  (at level 100, right associativity) : run_scope.
Open Scope run_scope.

Fixpoint for_each {A} (body : A -> nat -> M A) (idx : list nat) (acc : A)
  : M A :=
  match idx with
  | [] => ret acc
  | i :: r => acc' <- body acc i ;; for_each body r acc'
  end.

(** ** process_files *)

Definition uniform (a b u : Q) : Q := a + (b - a) * u.

Section ProcessFiles.

Variable env : Env.

(** A call of [progress_callback(message)]: the message counts as
    delivered when the callback returns. *)
Definition progress (message : string) : M unit :=
  fun w =>
    match progress_callback env message with
    | Some e => (inl e, w)
    | None => (inr tt, emit (Progress message) w)
    end.

(** [random.uniform(a, b)]: the next draw [u] of [random()] scaled to
    [a + (b - a) * u]. *)
Definition random_uniform (a b : Q) : M Q :=
  fun w =>
    (inr (uniform a b (random_random env (draws w))),
     {| trace := trace w; draws := S (draws w) |}).

Definition str (n : nat) : string :=
  NilEmpty.string_of_uint (Nat.to_uint n).

(** [f"{i + 1}/{total_clips} clips processed..."], by its two numbers. *)
Definition clips_message (numerator total_clips : nat) : string :=
  (str numerator ++ "/" ++ str total_clips ++ " clips processed...")%string.

(** Body of the loop of lines 60-76 for index [i]. *)
Definition clip_step (video : vclip) (video_duration : Q)
           (cut_times : list Q) (total_clips : nat)
           (clips : list vclip) (i : nat) : M (list vclip) :=
  let start_time := nth i cut_times 0 in
  let end_time := nth (i + 1) cut_times 0 in
  let clip_duration := end_time - start_time in
  if Qle_bool clip_duration 0 then ret clips
  else
    random_start <-
      random_uniform 0 (py_max 0 (video_duration - clip_duration)) ;;
    let random_end := random_start + clip_duration in
    clip <- lift (subclip video random_start random_end) ;;
    let clips := clips ++ [clip] in
    progress (clips_message (i + 1) total_clips) ;;;
    ret clips.

(** Lines 58-76: the list of clips. *)
Definition make_clips (video : vclip) (cut_times : list Q)
  : M (list vclip) :=
  let video_duration := vduration video in
  let total_clips := (length cut_times - 1)%nat in
  for_each (clip_step video video_duration cut_times total_clips)
           (seq 0 (length cut_times - 1)) [].

(** Lines 82-96: the mixed audio set on the concatenated video. *)
Definition mix_audio (audio_path : string) (final_video : vclip)
  : M vclip :=
  let original_audio := vaudio final_video in
  progress "Merging audio..." ;;;
  song_len <- lift (AudioFileClip env audio_path) ;;
  song_audio <-
    lift (asubclip (AudioFile audio_path song_len) 0 (vduration final_video)) ;;
  original_half <-
    match original_audio with
    | None => raise "'NoneType' object has no attribute 'volumex'"%string
    | Some a => ret (AVolumex a (1 # 2))
    end ;;
  mixed_audio <-
    lift (CompositeAudioClip [original_half; AVolumex song_audio (1 # 2)]) ;;
  ret (VSetAudio final_video mixed_audio).

(** Line 100: [final_video.write_videofile(...)]. *)
Definition save (final_video : vclip) (output_path : string) (fps : Q)
  : M unit :=
  fun w =>
    match write_videofile env final_video output_path with
    | Some e => (inl e, emit (WriteFailed final_video output_path) w)
    | None =>
        (inr tt,
         emit (WriteVideoFile final_video output_path fps "aac" 4) w)
    end.

Definition showinfo (title message : string) : M unit :=
  fun w =>
    match messagebox_showinfo env title message with
    | Some e => (inl e, w)
    | None => (inr tt, emit (ShowInfo title message) w)
    end.

(** The body of the [try] of [process_files]. *)
Definition process_files_try (audio_path video_path output_path : string)
  : M unit :=
  loaded <- lift (librosa_load env audio_path) ;;
  let '(y_len, sr) := loaded in
  let song_duration := Librosa.get_duration y_len sr in
  progress "Calculating STFT..." ;;;
  bass_energy <- lift (stft_bass_energy env audio_path) ;;
  progress "Detecting peak points..." ;;;
  cut_times <-
    lift (detect_cut_times (peak_height env) sr song_duration bass_energy) ;;
  progress "Loading video..." ;;;
  opened <- lift (VideoFileClip env video_path) ;;
  let '(duration, fps, has_audio) := opened in
  let video := VideoFile video_path duration fps has_audio in
  clips <- make_clips video cut_times ;;
  progress "Concatenating clips..." ;;;
  final_video <- lift (concatenate_videoclips clips) ;;
  final_video <- mix_audio audio_path final_video ;;
  progress "Saving video..." ;;;
  save final_video output_path (vfps video) ;;;
  progress "Process completed!" ;;;
  showinfo "Success" "The video was successfully created!".

(** [process_files]: the [try] body, and the [except Exception] that
    shows the error dialog. *)
Definition process_files (audio_path video_path output_path : string)
           (w : world) : world :=
  match process_files_try audio_path video_path output_path w with
  | (inr _, w') => w'
  | (inl e, w') =>
      emit (ShowError "Error" ("An error occurred: " ++ e)) w'
  end.

End ProcessFiles.

Definition start : world := {| trace := []; draws := 0 |}.

(** * Vocabulary of the properties *)

(** A plateau of [x] with edges [l] and [r] that is a local maximum in
    the sense of scipy: inside the array, entered by a rise, left by a
    fall. *)
Definition plateau_peak (x : list Q) (l r : nat) : Prop :=
  (1 <= l <= r)%nat /\ (r + 1 < length x)%nat /\
  nth (l - 1) x 0 < nth l x 0 /\
  (forall k, (l <= k <= r)%nat -> nth k x 0 == nth l x 0) /\
  nth (r + 1) x 0 < nth l x 0.

(** [ps] lists midpoints of plateau peaks of [x], left to right, the
    first plateau starting at [i] or later and each next one after the
    fall of the one before. *)
Inductive peaks_from (x : list Q) : nat -> list nat -> Prop :=
| peaks_nil i : peaks_from x i []
| peaks_cons i l r ps :
    (i <= l)%nat -> plateau_peak x l r -> peaks_from x (r + 2) ps ->
    peaks_from x i (((l + r) / 2)%nat :: ps).


(** The callback returns on every message. *)
Definition quiet (env : Env) : Prop :=
  forall message, progress_callback env message = None.

(** [random()] draws from the unit interval. *)
Definition fair (env : Env) : Prop :=
  forall k, 0 <= random_random env k /\ random_random env k < 1.

(** Duration of the [i]-th interval of a cut-time sequence. *)
Definition interval (cut_times : list Q) (i : nat) : Q :=
  nth (i + 1) cut_times 0 - nth i cut_times 0.

Definition positive_interval (cut_times : list Q) (i : nat) : bool :=
  negb (Qle_bool (interval cut_times i) 0).

(** Indices of the intervals of strictly positive duration. *)
Definition kept (cut_times : list Q) : list nat :=
  filter (positive_interval cut_times) (seq 0 (length cut_times - 1)).

(** Start the sampler picks for a clip of duration [cd] on draw [k]. *)
Definition sampled_start (env : Env) (video_duration cd : Q) (k : nat) : Q :=
  uniform 0 (py_max 0 (video_duration - cd)) (random_random env k).

(** The clips the loop appends for the indices [idx], the first of them
    on draw [k]. *)
Fixpoint planned (env : Env) (video : vclip) (cut_times : list Q)
         (idx : list nat) (k : nat) : list vclip :=
  match idx with
  | [] => []
  | i :: r =>
      if positive_interval cut_times i then
        let cd := interval cut_times i in
        let s := sampled_start env (vduration video) cd k in
        VSubclip video s (s + cd) :: planned env video cut_times r (S k)
      else planned env video cut_times r k
  end.

(** The per-segment messages for the indices [idx]. *)
Definition segment_messages (total_clips : nat) (idx : list nat)
  : list string :=
  map (fun i => clips_message (i + 1) total_clips) idx.

(** The numbers [i + 1] shown in the per-segment messages of a run. *)
Definition numerators (cut_times : list Q) : list nat :=
  map (fun i => (i + 1)%nat) (kept cut_times).

(** The events of a run that nothing interrupts: [js] are the indices
    of the intervals that got a clip, [total] the number of intervals. *)
Definition script (total : nat) (js : list nat) (final_video : vclip)
           (output_path : string) (fps : Q) : list event :=
  [Progress "Calculating STFT..."; Progress "Detecting peak points...";
   Progress "Loading video..."]
  ++ map Progress (segment_messages total js)
  ++ [Progress "Concatenating clips..."; Progress "Merging audio...";
      Progress "Saving video...";
      WriteVideoFile final_video output_path fps "aac" 4;
      Progress "Process completed!";
      ShowInfo "Success" "The video was successfully created!"].

(** The stage order of the status updates. *)
Definition stage_order (total : nat) (js : list nat) : list string :=
  ["Calculating STFT..."; "Detecting peak points..."; "Loading video..."]%string
  ++ segment_messages total js
  ++ ["Concatenating clips..."; "Merging audio..."; "Saving video...";
      "Process completed!"]%string.

(** The messages delivered through the progress callback, in order. *)
Fixpoint progress_of (t : list event) : list string :=
  match t with
  | [] => []
  | Progress m :: r => m :: progress_of r
  | _ :: r => progress_of r
  end.

Definition is_dialog (e : event) : bool :=
  match e with
  | ShowInfo _ _ | ShowError _ _ => true
  | _ => false
  end.

(** A call of [write_videofile], whether it returned or raised. *)
Definition is_write (e : event) : bool :=
  match e with
  | WriteVideoFile _ _ _ _ _ | WriteFailed _ _ => true
  | _ => false
  end.

(** A call of [write_videofile] that returned. *)
Definition is_written (e : event) : bool :=
  match e with
  | WriteVideoFile _ _ _ _ _ => true
  | _ => false
  end.

(** A clip cut from [video] that does not run backwards. *)
Definition cut_of (video : vclip) (c : vclip) : Prop :=
  exists s e, c = VSubclip video s e /\ 0 <= e - s.

(** The mixed track [process_files] sets on the concatenated video:
    the video's own audio and the song cut to the video's duration,
    each at half volume. *)
Definition mixed_track (native : aclip) (audio_path : string)
           (song_len : Q) (final_video : vclip) : aclip :=
  AComposite
    [AVolumex native (1 # 2);
     AVolumex (ASubclip (AudioFile audio_path song_len) 0
                        (vduration final_video)) (1 # 2)].

(** ** Sample runs *)

(** The height bound of the sample runs: the product taken exactly. *)
Definition seven_tenths (m : Q) : Q := m * (7 # 10).

(** A 10 s song of 2560 samples at 256 Hz whose curve peaks at frames 1
    and 3 (2 s and 6 s), a 30 s video with sound, a callback and
    libraries that never raise. *)
Definition demo : Env := {|
  librosa_load := fun _ => inr (2560%nat, 256%positive);
  stft_bass_energy := fun _ => inr [0; 5; 0; 5; 0; 0];
  peak_height := seven_tenths;
  progress_callback := fun _ => None;
  VideoFileClip := fun _ => inr (30, 25, true);
  AudioFileClip := fun _ => inr 10;
  random_random := fun _ => 1 # 2;
  write_videofile := fun _ _ => None;
  messagebox_showinfo := fun _ _ => None
|}.

Definition demo_video : vclip := VideoFile "v.mp4" 30 25 true.

(** The same run, but the window is closed while the file is written:
    the last call of the callback raises. *)
Definition window_closed : Env := {|
  librosa_load := librosa_load demo;
  stft_bass_energy := stft_bass_energy demo;
  peak_height := peak_height demo;
  progress_callback := fun m =>
    if String.eqb m "Process completed!"
    then Some "main thread is not in main loop"%string
    else None;
  VideoFileClip := VideoFileClip demo;
  AudioFileClip := AudioFileClip demo;
  random_random := random_random demo;
  write_videofile := write_videofile demo;
  messagebox_showinfo := messagebox_showinfo demo
|}.

(** The same run, but the encoder fails in the middle of the file. *)
Definition disk_full : Env := {|
  librosa_load := librosa_load demo;
  stft_bass_energy := stft_bass_energy demo;
  peak_height := peak_height demo;
  progress_callback := progress_callback demo;
  VideoFileClip := VideoFileClip demo;
  AudioFileClip := AudioFileClip demo;
  random_random := random_random demo;
  write_videofile := fun _ _ => Some "[Errno 28] No space left on device"%string;
  messagebox_showinfo := messagebox_showinfo demo
|}.

(** The same run, but the video file is missing. *)
Definition no_video : Env := {|
  librosa_load := librosa_load demo;
  stft_bass_energy := stft_bass_energy demo;
  peak_height := peak_height demo;
  progress_callback := progress_callback demo;
  VideoFileClip := fun _ => inl "MoviePy error: the file v.mp4 could not be found!"%string;
  AudioFileClip := AudioFileClip demo;
  random_random := random_random demo;
  write_videofile := write_videofile demo;
  messagebox_showinfo := messagebox_showinfo demo
|}.

(** ** The window: [browse_file] and [start_processing] *)

Module Tk.

(** [entry.delete(first, last)] on the text of an Entry: the characters
    from index [first] up to, not including, index [last] go. *)
Definition delete (first last : nat) (text : string) : string :=
  if (last <=? first)%nat then text
  else (substring 0 first text
        ++ substring last (String.length text - last) text)%string.

(** [entry.insert(index, s)] on the text of an Entry. *)
Definition insert (index : nat) (s text : string) : string :=
  (substring 0 index text ++ s
   ++ substring index (String.length text - index) text)%string.

(** [tk.END] as an index into the text. *)
Definition END (text : string) : nat := String.length text.

End Tk.

(** A file dialog of [tkinter.filedialog], by its arguments. *)
Inductive dialog : Type :=
| askopenfilename (title : string) (filetypes : list (string * string))
| asksaveasfilename (title defaultextension : string)
                    (filetypes : list (string * string)).

(** The dialog [browse_file] opens for [file_type]. *)
Definition dialog_of (file_type : string) : dialog :=
  if String.eqb file_type "audio" then
    askopenfilename "Select Audio File"
      [("MP3 Files", "*.mp3"); ("WAV Files", "*.wav"); ("All Files", "*.*")]%string
  else if String.eqb file_type "video" then
    askopenfilename "Select Video File"
      [("MP4 Files", "*.mp4"); ("AVI Files", "*.avi"); ("All Files", "*.*")]%string
  else
    asksaveasfilename "Save Output File" ".mp4"
      [("MP4 Files", "*.mp4")]%string.

(** [browse_file(entry, file_type)]: [user] is what the dialog returns
    (the empty string when it is cancelled), [entry] the text of the
    Entry before; the result is its text after. *)
Definition browse_file (user : dialog -> string) (entry file_type : string)
  : string :=
  let file_path := user (dialog_of file_type) in
  Tk.insert 0 file_path (Tk.delete 0 (Tk.END entry) entry).

(** Python's [not s] on a string. *)
Definition py_not (s : string) : bool :=
  match s with
  | EmptyString => true
  | String _ _ => false
  end.

(** What [start_processing] does: the warning box, or a thread started
    on [run], given here by what [run] does to the world. *)
Inductive started : Type :=
| showwarning (title message : string)
| Thread (run : world -> world).

(** [start_processing]: the three arguments are the texts of the three
    entries; [env] answers for the libraries and, in its field
    [progress_callback], for [update_progress]. *)
Definition start_processing (env : Env)
           (audio_entry video_entry output_entry : string) : started :=
  let audio_path := audio_entry in
  let video_path := video_entry in
  let output_path := output_entry in
  if py_not audio_path || py_not video_path || py_not output_path then
    showwarning "Missing Information" "Please select all file paths."
  else
    Thread (process_files env audio_path video_path output_path).

(** ** Further vocabulary *)

(** A clip cut from [video], whatever its ends. *)
Definition subclip_of (video : vclip) (c : vclip) : Prop :=
  exists s e, c = VSubclip video s e.


(** The run of [demo] on a video without an audio track. *)
Definition silent_video : Env := {|
  librosa_load := librosa_load demo;
  stft_bass_energy := stft_bass_energy demo;
  peak_height := peak_height demo;
  progress_callback := progress_callback demo;
  VideoFileClip := fun _ => inr (30, 25, false);
  AudioFileClip := AudioFileClip demo;
  random_random := random_random demo;
  write_videofile := write_videofile demo;
  messagebox_showinfo := messagebox_showinfo demo
|}.

(** The run of [demo] on a signal without samples. *)
Definition empty_song : Env := {|
  librosa_load := fun _ => inr (0%nat, 22050%positive);
  stft_bass_energy := fun _ => inr [0];
  peak_height := peak_height demo;
  progress_callback := progress_callback demo;
  VideoFileClip := VideoFileClip demo;
  AudioFileClip := fun _ => inr 0;
  random_random := random_random demo;
  write_videofile := write_videofile demo;
  messagebox_showinfo := messagebox_showinfo demo
|}.

(** Two sample curves: peaks at frames 1 and 3; a plateau at frames 1-2
    and a peak at frame 4. *)
Definition demo_curve : list Q := [0; 5; 0; 5; 0; 0].

Definition plateau_curve : list Q := [0; 5; 5; 0; 9; 1].

(** Two sample cut-time sequences: one with a duplicate, and the one of
    the 10 s song with peaks at 2 s and 6 s. *)
Definition duplicate_cuts : list Q := [0; 1; 1; 2].

Definition ten_second_cuts : list Q := [0; 2; 6; 10].

(** A user who picks the same file in every dialog, and one who cancels
    every dialog. *)
Definition picks (path : string) : dialog -> string := fun _ => path.

Definition cancels : dialog -> string := fun _ => EmptyString.

(** ** The sampler in binary64

    Lines 63, 69 and 70 on the floats of the running program, for the
    one place where rounding shows: the duration of the clip that
    [subclip] returns. *)

Module Binary64.

Import PrimFloat.

Definition py_max (a b : float) : float := if ltb a b then b else a.

(** [random.uniform(a, b)] is [a + (b - a) * self.random()]. *)
Definition uniform (a b u : float) : float := (a + (b - a) * u)%float.



End Binary64.

(** * Properties *)

(** ** Comparisons *)

Lemma Qltb_lt a b : Qltb a b = true <-> a < b.
Proof.
  unfold Qltb. rewrite negb_true_iff, <- not_true_iff_false, Qle_bool_iff.
  split; [apply Qnot_le_lt | apply Qlt_not_le].
Qed.

Lemma Qltb_ge a b : Qltb a b = false <-> b <= a.
Proof.
  unfold Qltb. rewrite negb_false_iff. apply Qle_bool_iff.
Qed.

(** ** Sorting *)

Lemma insert_perm a l : Permutation (a :: l) (Np.insert a l).
Proof.
  induction l as [|b r IH]; simpl; [reflexivity|].
  destruct (Qle_bool a b); [reflexivity|].
  rewrite perm_swap. now constructor.
Qed.

Lemma sort_perm l : Permutation l (Np.sort l).
Proof.
  induction l as [|a r IH]; simpl; [constructor|].
  rewrite <- insert_perm. now constructor.
Qed.

Lemma insert_sorted a l : Sorted Qle l -> Sorted Qle (Np.insert a l).
Proof.
  induction 1 as [|b r Hs IH Hb]; simpl; [repeat constructor|].
  destruct (Qle_bool a b) eqn:E.
  - apply Qle_bool_iff in E. repeat constructor; assumption.
  - assert (Hba : b <= a).
    { apply Qlt_le_weak, Qnot_le_lt. rewrite <- Qle_bool_iff. congruence. }
    constructor; [assumption|].
    destruct r as [|c r]; simpl in *; [now constructor|].
    destruct (Qle_bool a c); constructor; try assumption.
    now inversion Hb.
Qed.

Lemma sort_sorted l : Sorted Qle (Np.sort l).
Proof.
  induction l; simpl; [constructor | now apply insert_sorted].
Qed.

(** Sorting leaves an array that is already in order as it is. *)
Lemma sort_id l : Sorted Qle l -> Np.sort l = l.
Proof.
  induction 1 as [|a r Hs IH Ha]; simpl; [reflexivity|].
  rewrite IH. destruct Ha as [|b r Hab]; simpl; [reflexivity|].
  apply Qle_bool_iff in Hab. now rewrite Hab.
Qed.

Lemma Sorted_lt_le l : Sorted Qlt l -> Sorted Qle l.
Proof.
  induction 1 as [|a r Hs IH Ha]; constructor; [assumption|].
  destruct Ha; constructor. now apply Qlt_le_weak.
Qed.

(** ** Peak detection *)

Lemma plateau_end_spec x i_max xi fuel : forall j,
  let e := Scipy.plateau_end x i_max xi fuel j in
  (j <= e)%nat /\ ((j <= i_max)%nat -> (e <= i_max)%nat) /\
  forall k, (j <= k < e)%nat -> nth k x 0 == xi.
Proof.
  induction fuel as [|fuel IH]; intros j; simpl.
  - repeat split; intros; lia.
  - destruct ((j <? i_max)%nat && Qeq_bool (nth j x 0) xi) eqn:E.
    + apply andb_true_iff in E. destruct E as [Hj Hx].
      apply Nat.ltb_lt in Hj. apply Qeq_bool_iff in Hx.
      destruct (IH (S j)) as (H1 & H2 & H3).
      repeat split; [lia | intros; apply H2; lia |].
      intros k Hk. destruct (Nat.eq_dec k j) as [->|Hne]; [assumption|].
      apply H3. lia.
    + repeat split; intros; lia.
Qed.

(** The look-ahead stops for the reason scipy's loop stops, not for
    lack of fuel: at [i_max], or at a sample off the plateau. *)
Lemma plateau_end_stops x i_max xi fuel : forall j,
  (i_max - j <= fuel)%nat ->
  let e := Scipy.plateau_end x i_max xi fuel j in
  (i_max <= e)%nat \/ ~ nth e x 0 == xi.
Proof.
  induction fuel as [|fuel IH]; intros j Hfuel; simpl.
  - left. lia.
  - destruct (j <? i_max)%nat eqn:Hj; simpl.
    + destruct (Qeq_bool (nth j x 0) xi) eqn:Hx.
      * apply IH. lia.
      * right. now apply Qeq_bool_neq.
    + apply Nat.ltb_ge in Hj. now left.
Qed.

(** The scan does not depend on the fuel once there is one unit of it
    per index left to visit. *)
Lemma local_maxima_from_fuel x i_max fuel : forall fuel' i,
  (i_max - i <= fuel)%nat -> (i_max - i <= fuel')%nat ->
  Scipy.local_maxima_from x i_max fuel i =
  Scipy.local_maxima_from x i_max fuel' i.
Proof.
  induction fuel as [|fuel IH]; intros fuel' i H H'.
  - destruct fuel' as [|fuel']; [reflexivity|]. simpl.
    destruct (i <? i_max)%nat eqn:Hi; [|reflexivity].
    apply Nat.ltb_lt in Hi. lia.
  - destruct fuel' as [|fuel']; simpl.
    + destruct (i <? i_max)%nat eqn:Hi; [|reflexivity].
      apply Nat.ltb_lt in Hi. lia.
    + destruct (i <? i_max)%nat eqn:Hi; [|reflexivity].
      apply Nat.ltb_lt in Hi.
      destruct (plateau_end_spec x i_max (nth i x 0) i_max (i + 1))
        as (H1 & _).
      destruct (Qltb (nth (i - 1) x 0) (nth i x 0));
        [destruct (Qltb _ (nth i x 0)); [f_equal|]|]; apply IH; lia.
Qed.

Lemma peaks_from_weaken x i j ps :
  (i <= j)%nat -> peaks_from x j ps -> peaks_from x i ps.
Proof.
  intros Hij H. destruct H; econstructor; eauto. lia.
Qed.

(** The scan of scipy reports midpoints of plateau peaks only. *)
Lemma local_maxima_from_peaks x fuel : forall i,
  (1 <= i)%nat ->
  peaks_from x i (Scipy.local_maxima_from x (length x - 1) fuel i).
Proof.
  induction fuel as [|fuel IH]; intros i Hi; simpl; [constructor|].
  destruct (i <? length x - 1)%nat eqn:Hlt; [|constructor].
  apply Nat.ltb_lt in Hlt.
  destruct (Qltb (nth (i - 1) x 0) (nth i x 0)) eqn:Hrise.
  - destruct (plateau_end_spec x (length x - 1) (nth i x 0) (length x - 1) (i + 1))
      as (H1 & H2 & H3).
    set (i_ahead := Scipy.plateau_end x (length x - 1) (nth i x 0)
                                      (length x - 1) (i + 1)) in *.
    destruct (Qltb (nth i_ahead x 0) (nth i x 0)) eqn:Hfall.
    + apply Qltb_lt in Hrise, Hfall.
      assert (Hr : (i_ahead - 1 + 1 = i_ahead)%nat) by lia.
      apply peaks_cons with (l := i) (r := (i_ahead - 1)%nat).
      * lia.
      * unfold plateau_peak. rewrite Hr.
        repeat split; try lia; try assumption.
        intros k Hk. destruct (Nat.eq_dec k i) as [->|Hne]; [reflexivity|].
        apply H3. lia.
      * replace (i_ahead - 1 + 2)%nat with (i_ahead + 1)%nat by lia.
        apply IH. lia.
    + apply peaks_from_weaken with (j := (i + 1)%nat); [lia|].
      apply IH. lia.
  - apply peaks_from_weaken with (j := (i + 1)%nat); [lia|].
    apply IH. lia.
Qed.

Lemma local_maxima_peaks x : peaks_from x 1 (Scipy.local_maxima x).
Proof. apply local_maxima_from_peaks. lia. Qed.

(** Every reported index lies on its plateau. *)
Lemma peaks_from_plateau x i ps :
  peaks_from x i ps ->
  Forall (fun p => exists l r, plateau_peak x l r /\ (l <= p <= r)%nat) ps.
Proof.
  induction 1 as [|i l r ps Hil Hp Hps IH]; constructor; [|assumption].
  exists l, r. split; [assumption|].
  destruct Hp as ((Hl & Hlr) & _).
  split.
  - apply Nat.div_le_lower_bound; lia.
  - apply Nat.Div0.div_le_upper_bound; lia.
Qed.

(** Reported indices increase strictly and stay inside the array. *)
Lemma peaks_from_sorted x i ps :
  peaks_from x i ps ->
  StronglySorted lt ps /\
  Forall (fun p => (i <= p)%nat /\ (p + 1 < length x)%nat) ps.
Proof.
  induction 1 as [|i l r ps Hil Hp Hps [IHs IHb]]; [split; constructor|].
  destruct Hp as ((Hl & Hlr) & Hr & _).
  assert (Hlo : (l <= (l + r) / 2)%nat) by (apply Nat.div_le_lower_bound; lia).
  assert (Hhi : ((l + r) / 2 <= r)%nat) by (apply Nat.Div0.div_le_upper_bound; lia).
  split; constructor.
  - assumption.
  - eapply Forall_impl; [|exact IHb]. cbv beta. intros p [Hp1 _]. lia.
  - lia.
  - eapply Forall_impl; [|exact IHb]. cbv beta. intros p [Hp1 Hp2]. lia.
Qed.


(** ** The sampler *)

Lemma py_max_0 b : 0 <= py_max 0 b /\ b <= py_max 0 b /\
                   (py_max 0 b == 0 \/ py_max 0 b == b).
Proof.
  unfold py_max. destruct (Qltb 0 b) eqn:E.
  - apply Qltb_lt in E. repeat split; try lra.
  - apply Qltb_ge in E. repeat split; try lra.
Qed.

Lemma uniform_bounds b u : 0 <= b -> 0 <= u -> u <= 1 ->
  0 <= uniform 0 b u /\ uniform 0 b u <= b.
Proof.
  intros Hb Hu0 Hu1. unfold uniform.
  assert (H0 : 0 <= b * u) by (apply Qmult_le_0_compat; assumption).
  assert (H1 : 0 <= b * (1 - u)) by (apply Qmult_le_0_compat; lra).
  split; lra.
Qed.

Lemma sampled_start_bounds env vd cd k :
  0 <= vd -> 0 <= random_random env k -> random_random env k <= 1 ->
  0 <= sampled_start env vd cd k /\
  (0 <= cd -> sampled_start env vd cd k <= vd) /\
  (cd <= vd -> sampled_start env vd cd k + cd <= vd).
Proof.
  intros Hvd Hu0 Hu1. unfold sampled_start.
  destruct (py_max_0 (vd - cd)) as (Hm0 & Hm1 & Hm).
  destruct (uniform_bounds (py_max 0 (vd - cd)) (random_random env k))
    as [H0 H1]; try assumption.
  repeat split; [assumption | | ].
  - intros Hcd. destruct Hm as [Hm|Hm]; lra.
  - intros Hcd. destruct Hm as [Hm|Hm]; lra.
Qed.

(** ** One turn of the loop *)

Lemma positive_interval_true ct i :
  positive_interval ct i = true <-> 0 < interval ct i.
Proof. apply (Qltb_lt 0). Qed.

Lemma positive_interval_false ct i :
  positive_interval ct i = false <-> interval ct i <= 0.
Proof. apply (Qltb_ge 0). Qed.

(** An interval of no positive duration: the turn does nothing at all. *)
Lemma clip_step_skip env video vd ct total clips i w :
  positive_interval ct i = false ->
  clip_step env video vd ct total clips i w = (inr clips, w).
Proof.
  intros H. unfold clip_step. fold (interval ct i).
  unfold positive_interval in H. apply negb_false_iff in H. now rewrite H.
Qed.

(** An interval of positive duration whose sampled start lies in the
    video: one draw, one clip, one message. *)
Lemma clip_step_sample env video ct total clips i w :
  positive_interval ct i = true ->
  let cd := interval ct i in
  let s := sampled_start env (vduration video) cd (draws w) in
  0 <= s -> s <= vduration video ->
  progress_callback env (clips_message (i + 1) total) = None ->
  clip_step env video (vduration video) ct total clips i w =
  (inr (clips ++ [VSubclip video s (s + cd)]),
   {| trace := trace w ++ [Progress (clips_message (i + 1) total)];
      draws := S (draws w) |}).
Proof.
  intros Hpos cd s Hs0 Hs1 Hcb.
  assert (Hcd : 0 < cd) by (now apply positive_interval_true).
  unfold clip_step. fold (interval ct i). fold cd.
  unfold positive_interval in Hpos. apply negb_true_iff in Hpos.
  fold cd in Hpos. rewrite Hpos.
  unfold bind, random_uniform.
  fold (sampled_start env (vduration video) cd (draws w)).
  fold s. unfold subclip.
  assert (E1 : Qltb s 0 = false) by (now apply Qltb_ge).
  assert (E2 : Qltb (vduration video) s = false) by (now apply Qltb_ge).
  assert (E3 : Qltb (s + cd) 0 = false) by (apply Qltb_ge; lra).
  rewrite E1, E2, E3. simpl. unfold progress. simpl. rewrite Hcb.
  reflexivity.
Qed.

Lemma clip_step_keep env video ct total clips i w :
  positive_interval ct i = true ->
  0 <= vduration video ->
  0 <= random_random env (draws w) -> random_random env (draws w) <= 1 ->
  progress_callback env (clips_message (i + 1) total) = None ->
  let cd := interval ct i in
  let s := sampled_start env (vduration video) cd (draws w) in
  clip_step env video (vduration video) ct total clips i w =
  (inr (clips ++ [VSubclip video s (s + cd)]),
   {| trace := trace w ++ [Progress (clips_message (i + 1) total)];
      draws := S (draws w) |}).
Proof.
  intros Hpos Hvd Hu0 Hu1 Hcb cd s.
  destruct (sampled_start_bounds env (vduration video) cd (draws w))
    as (Hs0 & Hs1 & _); try assumption.
  assert (Hcd : 0 < cd) by (now apply positive_interval_true).
  apply clip_step_sample; try assumption. apply Hs1. lra.
Qed.

(** ** The loop *)

(** With a callback that returns and draws in the unit interval the loop
    runs to its end: it appends the planned clips and delivers one
    message per interval of positive duration. *)
Lemma for_each_clips env video ct total :
  quiet env -> fair env -> 0 <= vduration video ->
  forall idx clips w,
    for_each (clip_step env video (vduration video) ct total) idx clips w =
    (inr (clips ++ planned env video ct idx (draws w)),
     {| trace := trace w ++
                 map Progress
                     (segment_messages total
                        (filter (positive_interval ct) idx));
        draws := draws w + length (filter (positive_interval ct) idx) |}).
Proof.
  intros Hq Hf Hvd. induction idx as [|i r IH]; intros clips w; simpl.
  - unfold ret. rewrite !app_nil_r, Nat.add_0_r. now destruct w.
  - unfold bind. destruct (positive_interval ct i) eqn:Hpos.
    + destruct (Hf (draws w)) as [Hu0 Hu1].
      rewrite clip_step_keep; try assumption; [|lra|apply Hq].
      rewrite IH. simpl. rewrite <- !app_assoc. simpl.
      now rewrite (Nat.add_succ_r (draws w)).
    + rewrite clip_step_skip by assumption. apply IH.
Qed.

Lemma make_clips_run env video ct w :
  quiet env -> fair env -> 0 <= vduration video ->
  make_clips env video ct w =
  (inr (planned env video ct (seq 0 (length ct - 1)) (draws w)),
   {| trace := trace w ++
               map Progress (segment_messages (length ct - 1) (kept ct));
      draws := draws w + length (kept ct) |}).
Proof.
  intros Hq Hf Hvd. unfold make_clips.
  now rewrite for_each_clips by assumption.
Qed.

Lemma planned_length env video ct idx : forall k,
  length (planned env video ct idx k) =
  length (filter (positive_interval ct) idx).
Proof.
  induction idx as [|i r IH]; intros k; simpl; [reflexivity|].
  destruct (positive_interval ct i); simpl; now rewrite IH.
Qed.

(** Whatever the libraries and the callback do, the messages the loop
    delivers are those of the first positive intervals, in order, and
    of all of them when the loop ends without an exception. *)
Lemma for_each_trace env video vd ct total : forall idx clips w r w',
  for_each (clip_step env video vd ct total) idx clips w = (r, w') ->
  exists js rest,
    filter (positive_interval ct) idx = js ++ rest /\
    trace w' = trace w ++ map Progress (segment_messages total js) /\
    (forall cs, r = inr cs -> rest = []).
Proof.
  induction idx as [|i idx IH]; intros clips w r w' H; simpl in H.
  - injection H as <- <-. exists [], []. simpl.
    rewrite app_nil_r. auto.
  - unfold bind in H. destruct (positive_interval ct i) eqn:Hpos.
    + simpl. rewrite Hpos.
      unfold clip_step in H. fold (interval ct i) in H.
      unfold positive_interval in Hpos. apply negb_true_iff in Hpos.
      rewrite Hpos in H. unfold bind, random_uniform in H.
      destruct (subclip _ _ _) as [e|clip]; simpl in H.
      * injection H as <- <-. exists [], (i :: filter (positive_interval ct) idx).
        simpl. rewrite app_nil_r. repeat split. discriminate.
      * unfold progress in H; simpl in H.
        destruct (progress_callback env _) as [e|]; simpl in H.
        -- injection H as <- <-.
           exists [], (i :: filter (positive_interval ct) idx).
           simpl. rewrite app_nil_r. repeat split. discriminate.
        -- apply IH in H. destruct H as (js & rest & Hjs & Ht & Hr).
           exists (i :: js), rest. simpl in *.
           rewrite Hjs, Ht, <- app_assoc. auto.
    + simpl. rewrite Hpos.
      rewrite clip_step_skip in H by assumption. eapply IH, H.
Qed.

(** ** Cut times *)

Lemma Qlt_same_den a b d : (a # d) < (b # d) <-> (a < b)%Z.
Proof.
  unfold Qlt. simpl. split; intros H.
  - eapply Z.mul_lt_mono_pos_r; [|exact H]. apply Pos2Z.is_pos.
  - apply Z.mul_lt_mono_pos_r; [apply Pos2Z.is_pos | exact H].
Qed.

Lemma frame_time_pos sr p : (1 <= p)%nat -> 0 < Librosa.frame_time sr p.
Proof.
  intros Hp. unfold Librosa.frame_time, Librosa.hop_length, Qlt. simpl. lia.
Qed.

Lemma frame_time_lt sr p q :
  (p < q)%nat -> Librosa.frame_time sr p < Librosa.frame_time sr q.
Proof.
  intros H. apply Qlt_same_den. unfold Librosa.hop_length. lia.
Qed.

(** A frame that is not the last one starts before the signal ends. *)
Lemma frame_time_before_end sr n p :
  (p + 1 < Librosa.n_frames n)%nat ->
  Librosa.frame_time sr p < Librosa.get_duration n sr.
Proof.
  unfold Librosa.n_frames, Librosa.frame_time, Librosa.get_duration,
    Librosa.hop_length.
  intros H. apply Qlt_same_den.
  pose proof (Nat.Div0.mul_div_le n 512). lia.
Qed.

Lemma take_times sr n ps :
  Forall (fun p => (p < n)%nat) ps ->
  Np.take (Librosa.frames_to_time (Np.arange n) sr) ps =
  Some (map (Librosa.frame_time sr) ps).
Proof.
  induction 1 as [|p ps Hp Hps IH]; simpl; [reflexivity|].
  rewrite IH. unfold Librosa.frames_to_time, Np.arange.
  rewrite nth_error_map.
  rewrite (nth_error_nth' _ 0%nat) by (now rewrite length_seq).
  now rewrite seq_nth.
Qed.

Lemma find_peaks_sorted x h :
  StronglySorted lt (Scipy.find_peaks x h) /\
  Forall (fun p => (1 <= p)%nat /\ (p + 1 < length x)%nat)
         (Scipy.find_peaks x h).
Proof.
  destruct (peaks_from_sorted x 1 _ (local_maxima_peaks x)) as [Hs Hb].
  unfold Scipy.find_peaks. split.
  - induction Hs as [|p ps Hs IH Hp]; simpl; [constructor|].
    rewrite Forall_forall in Hp.
    destruct (Qle_bool h (nth p x 0)).
    + constructor; [apply IH; now inversion Hb|].
      apply Forall_forall. intros q Hq. apply filter_In in Hq.
      apply Hp, Hq.
    + apply IH. now inversion Hb.
  - apply Forall_forall. intros p Hp. apply filter_In in Hp.
    rewrite Forall_forall in Hb. apply Hb, Hp.
Qed.

(** Lines 38-48 on a non-empty curve: no exception, and the cut times
    are the sorted concatenation of 0, the peak times and the duration. *)
Lemma detect_cut_times_run height sr d x m :
  Np.max x = Some m ->
  detect_cut_times height sr d x =
  inr (cut_times_of
         (map (Librosa.frame_time sr) (Scipy.find_peaks x (height m))) d).
Proof.
  intros Hm. unfold detect_cut_times. rewrite Hm.
  rewrite take_times; [reflexivity|].
  destruct (find_peaks_sorted x (height m)) as [_ Hb].
  eapply Forall_impl; [|exact Hb]. cbv beta. lia.
Qed.

Lemma max_nonempty x : x <> [] -> exists m, Np.max x = Some m.
Proof. destruct x; [congruence | simpl; eauto]. Qed.

Lemma cut_times_of_eq peak_times d :
  cut_times_of peak_times d = Np.sort (0 :: peak_times ++ [d]).
Proof. reflexivity. Qed.

(** The cut times of any run are in ascending order and hold 0, every
    peak time and the duration, each as often as it was put in. *)
Lemma cut_times_sorted peak_times d :
  Sorted Qle (cut_times_of peak_times d) /\
  Permutation (0 :: peak_times ++ [d]) (cut_times_of peak_times d).
Proof.
  rewrite cut_times_of_eq. split; [apply sort_sorted | apply sort_perm].
Qed.

Lemma cut_times_of_sorted peak_times d :
  Sorted Qle (0 :: peak_times ++ [d]) ->
  cut_times_of peak_times d = 0 :: peak_times ++ [d].
Proof.
  intros H. rewrite cut_times_of_eq. now apply sort_id.
Qed.

Lemma strictly_sorted_times sr n ps :
  StronglySorted lt ps ->
  Forall (fun p => (1 <= p)%nat /\ (p + 1 < Librosa.n_frames n)%nat) ps ->
  forall lo, Forall (fun p => lo < Librosa.frame_time sr p) ps ->
  lo < Librosa.get_duration n sr ->
  StronglySorted Qlt
    (lo :: map (Librosa.frame_time sr) ps ++ [Librosa.get_duration n sr]).
Proof.
  induction 1 as [|p ps Hs IH Hp]; intros Hb lo Hlo Hd; simpl.
  - repeat constructor. assumption.
  - inversion Hb as [|? ? [Hp1 Hp2] Hb']; subst.
    inversion Hlo as [|? ? Hlop Hlo']; subst.
    constructor.
    + apply IH; try assumption.
      * eapply Forall_impl; [|exact Hp]. intros q. apply frame_time_lt.
      * now apply frame_time_before_end.
    + constructor; [assumption|].
      apply Forall_app. split.
      * apply Forall_map. assumption.
      * repeat constructor. assumption.
Qed.

(** ** Sample runs *)

Lemma demo_quiet : quiet demo.
Proof. intros m. reflexivity. Qed.

Lemma demo_fair : fair demo.
Proof. intros k. simpl. split; lra. Qed.


(** ** C1: a curve without a high peak gives one cut interval *)





(** The height bound of [find_peaks] is inclusive: a plateau peak of
    exactly 70% of the maximum is reported. *)
Example peak_at_threshold :
  Scipy.find_peaks [0; 7; 0; 10] (10 * (7 # 10)) = [1%nat].
Proof. reflexivity. Qed.

(** ** C2: order of the cut times *)

(** C2 (amended).  For every non-empty signal, framed the way librosa
    frames it, the cut times are 0, the peak times and the song
    duration in this order, and they increase strictly. *)
Theorem cut_times_strictly_increasing
        (height : Q -> Q) (sr : positive) (n : nat) (x : list Q) :
  (0 < n)%nat -> length x = Librosa.n_frames n ->
  let d := Librosa.get_duration n sr in
  exists m,
    Np.max x = Some m /\
    let peak_times :=
      map (Librosa.frame_time sr) (Scipy.find_peaks x (height m)) in
    detect_cut_times height sr d x = inr (0 :: peak_times ++ [d]) /\
    StronglySorted Qlt (0 :: peak_times ++ [d]).
Proof.
  intros Hn Hlen d.
  assert (Hx : x <> []).
  { intros ->. unfold Librosa.n_frames in Hlen. simpl in Hlen. lia. }
  destruct (max_nonempty x Hx) as [m Hm]. exists m.
  split; [assumption|]. intros peak_times.
  destruct (find_peaks_sorted x (height m)) as [Hs Hb].
  rewrite Hlen in Hb.
  assert (Hstrict : StronglySorted Qlt (0 :: peak_times ++ [d])).
  { apply strictly_sorted_times; try assumption.
    - eapply Forall_impl; [|exact Hb]. cbv beta.
      intros p [Hp _]. now apply frame_time_pos.
    - unfold Librosa.get_duration, Qlt. simpl. lia. }
  split; [|assumption].
  rewrite (detect_cut_times_run height sr d x m Hm). f_equal.
  apply cut_times_of_sorted, Sorted_lt_le, StronglySorted_Sorted, Hstrict.
Qed.

Lemma cut_times_strictly_increasing_witness :
  exists m,
    Np.max [0; 5; 0; 5; 0; 0] = Some m /\
    let peak_times :=
      map (Librosa.frame_time 256)
          (Scipy.find_peaks [0; 5; 0; 5; 0; 0] (seven_tenths m)) in
    detect_cut_times seven_tenths 256 (Librosa.get_duration 2560 256) [0; 5; 0; 5; 0; 0] =
    inr (0 :: peak_times ++ [Librosa.get_duration 2560 256]) /\
    StronglySorted Qlt (0 :: peak_times ++ [Librosa.get_duration 2560 256]).
Proof.
  apply (cut_times_strictly_increasing seven_tenths 256 2560
                                       [0; 5; 0; 5; 0; 0]).
  - lia.
  - reflexivity.
Defined.

(** A signal of no samples has one frame and duration 0: the cut times
    are [0, 0], a duplicate that sorting keeps. *)
Lemma empty_signal_duplicate_cut :
  length [0] = Librosa.n_frames 0 /\
  exists a b,
    detect_cut_times seven_tenths 22050 (Librosa.get_duration 0 22050) [0] = inr [a; b] /\
    a == b /\
    ~ StronglySorted Qlt [a; b].
Proof.
  split; [reflexivity|].
  exists 0, (Librosa.get_duration 0 22050).
  split; [reflexivity|]. split; [reflexivity|].
  intros H. inversion H as [|? ? _ Hall]; subst.
  inversion Hall as [|? ? Hlt _]; subst. discriminate Hlt.
Qed.

(** ** C3: intervals of no duration *)

Lemma kept_spec ct i :
  In i (kept ct) <-> (i < length ct - 1)%nat /\ 0 < interval ct i.
Proof.
  unfold kept. rewrite filter_In, in_seq, positive_interval_true.
  intuition lia.
Qed.

(** C3.  In every cut-time sequence a turn of the loop on an interval
    of zero duration changes nothing and raises nothing, and the loop
    yields as many clips as there are intervals of strictly positive
    duration. *)
Theorem zero_intervals_skipped
        (env : Env) (video : vclip) (ct : list Q) (w : world) :
  quiet env -> fair env -> 0 <= vduration video ->
  (forall clips i w0,
      nth (i + 1) ct 0 == nth i ct 0 ->
      clip_step env video (vduration video) ct (length ct - 1) clips i w0 =
      (inr clips, w0)) /\
  exists clips w',
    make_clips env video ct w = (inr clips, w') /\
    length clips = length (kept ct) /\
    forall i, In i (kept ct) <->
              (i < length ct - 1)%nat /\ 0 < interval ct i.
Proof.
  intros Hq Hf Hvd. split.
  - intros clips i w0 Heq. apply clip_step_skip.
    apply positive_interval_false. unfold interval. lra.
  - rewrite make_clips_run by assumption.
    eexists _, _. split; [reflexivity|]. split; [|apply kept_spec].
    apply planned_length.
Qed.

Lemma zero_intervals_skipped_witness :
  (forall clips i w0,
      nth (i + 1) [0; 1; 1; 2] 0 == nth i [0; 1; 1; 2] 0 ->
      clip_step demo demo_video (vduration demo_video) [0; 1; 1; 2]
                (length [0; 1; 1; 2] - 1) clips i w0 =
      (inr clips, w0)) /\
  exists clips w',
    make_clips demo demo_video [0; 1; 1; 2] start = (inr clips, w') /\
    length clips = length (kept [0; 1; 1; 2]) /\
    forall i, In i (kept [0; 1; 1; 2]) <->
              (i < length [0; 1; 1; 2] - 1)%nat /\
              0 < interval [0; 1; 1; 2] i.
Proof.
  apply (zero_intervals_skipped demo demo_video [0; 1; 1; 2] start).
  - exact demo_quiet.
  - exact demo_fair.
  - simpl. discriminate.
Defined.

(** ** C4: a clip that fits is cut inside the video *)

(** C4.  For every interval whose duration is positive and at most the
    duration of the video, the turn of the loop cuts the clip
    [random_start, random_start + clip_duration] with
    [0 <= random_start] and [random_start + clip_duration <=
    video_duration]. *)
Theorem sampled_range_within_video
        (env : Env) (video : vclip) (ct : list Q) (total : nat)
        (clips : list vclip) (i : nat) (w : world) :
  fair env ->
  0 < interval ct i -> interval ct i <= vduration video ->
  progress_callback env (clips_message (i + 1) total) = None ->
  exists random_start w',
    clip_step env video (vduration video) ct total clips i w =
    (inr (clips ++ [VSubclip video random_start
                             (random_start + interval ct i)]), w') /\
    0 <= random_start /\
    random_start + interval ct i <= vduration video.
Proof.
  intros Hf Hcd Hfit Hcb.
  destruct (Hf (draws w)) as [Hu0 Hu1].
  assert (Hvd : 0 <= vduration video) by lra.
  destruct (sampled_start_bounds env (vduration video) (interval ct i) (draws w))
    as (Hs0 & Hs1 & Hs2); try assumption; [lra|].
  eexists _, _. split; [|split].
  - apply clip_step_keep; try assumption; [|lra].
    now apply positive_interval_true.
  - assumption.
  - now apply Hs2.
Qed.

Lemma sampled_range_within_video_witness :
  exists random_start w',
    clip_step demo demo_video (vduration demo_video) [0; 2; 6; 10] 3 [] 1 start =
    (inr ([] ++ [VSubclip demo_video random_start
                          (random_start + interval [0; 2; 6; 10] 1)]), w') /\
    0 <= random_start /\
    random_start + interval [0; 2; 6; 10] 1 <= vduration demo_video.
Proof.
  apply (sampled_range_within_video demo demo_video [0; 2; 6; 10] 3 [] 1 start).
  - exact demo_fair.
  - reflexivity.
  - vm_compute. discriminate.
  - reflexivity.
Defined.

(** ** C5: a clip longer than the video *)

(** C5.  For every interval whose duration exceeds the duration of the
    video, the range of the random start is the single point 0 and the
    clip cut is [0, clip_duration], which ends after the video does. *)
Theorem long_interval_exceeds_video
        (env : Env) (video : vclip) (ct : list Q) (total : nat)
        (clips : list vclip) (i : nat) (w : world) :
  0 <= vduration video -> vduration video < interval ct i ->
  progress_callback env (clips_message (i + 1) total) = None ->
  py_max 0 (vduration video - interval ct i) = 0 /\
  (forall u, uniform 0 (py_max 0 (vduration video - interval ct i)) u == 0) /\
  exists random_start random_end w',
    clip_step env video (vduration video) ct total clips i w =
    (inr (clips ++ [VSubclip video random_start random_end]), w') /\
    random_start == 0 /\
    random_end == interval ct i /\
    vduration video < random_end.
Proof.
  intros Hvd Hlong Hcb.
  assert (Hmax : py_max 0 (vduration video - interval ct i) = 0).
  { unfold py_max.
    assert (E : Qltb 0 (vduration video - interval ct i) = false)
      by (apply Qltb_ge; lra).
    now rewrite E. }
  assert (Hpoint : forall u,
             uniform 0 (py_max 0 (vduration video - interval ct i)) u == 0).
  { intros u. rewrite Hmax. unfold uniform. ring. }
  split; [assumption|]. split; [assumption|].
  pose proof (Hpoint (random_random env (draws w))) as Hs.
  fold (sampled_start env (vduration video) (interval ct i) (draws w)) in Hs.
  eexists _, _, _. split; [|split; [|split]].
  - apply clip_step_sample; try assumption.
    + apply positive_interval_true. lra.
    + lra.
    + lra.
  - exact Hs.
  - lra.
  - lra.
Qed.

Lemma long_interval_exceeds_video_witness :
  py_max 0 (vduration demo_video - interval [0; 40] 0) = 0 /\
  (forall u,
      uniform 0 (py_max 0 (vduration demo_video - interval [0; 40] 0)) u == 0) /\
  exists random_start random_end w',
    clip_step demo demo_video (vduration demo_video) [0; 40] 1 [] 0 start =
    (inr ([] ++ [VSubclip demo_video random_start random_end]), w') /\
    random_start == 0 /\
    random_end == interval [0; 40] 0 /\
    vduration demo_video < random_end.
Proof.
  apply (long_interval_exceeds_video demo demo_video [0; 40] 1 [] 0 start).
  - simpl. discriminate.
  - reflexivity.
  - reflexivity.
Defined.

(** ** C6: the 10 s song with peaks at 2 s and 6 s *)



Section Binary64Run.

Import PrimFloat.


End Binary64Run.

(** ** C10: the numbers in the per-segment messages *)

Lemma seq_sorted n : forall a, StronglySorted lt (seq a n).
Proof.
  induction n as [|n IH]; intros a; simpl; constructor; [apply IH|].
  apply Forall_forall. intros b Hb. apply in_seq in Hb. lia.
Qed.

Lemma filter_sorted {A} (R : A -> A -> Prop) f l :
  StronglySorted R l -> StronglySorted R (filter f l).
Proof.
  induction 1 as [|a l Hs IH Ha]; simpl; [constructor|].
  destruct (f a); [|assumption].
  constructor; [assumption|].
  rewrite Forall_forall in *. intros b Hb. apply filter_In in Hb.
  apply Ha, Hb.
Qed.







(** The numbers shown for the cut times [0, 1, 1, 2] are 1 and 3 of 3:
    the interval of no duration gets no message. *)
Example numerators_skip : numerators [0; 1; 1; 2] = [1; 3]%nat.
Proof. reflexivity. Qed.

(** A last interval of no duration: the last number shown stays below
    the number of intervals. *)
Example numerators_short : numerators [0; 1; 2; 2] = [1; 2]%nat.
Proof. reflexivity. Qed.

(** ** The whole run *)

Lemma lift_inl {A} (e : exn) w : @lift A (inl e) w = (inl e, w).
Proof. reflexivity. Qed.

Lemma lift_inr {A} (x : A) w : lift (inr x) w = (inr x, w).
Proof. reflexivity. Qed.

Ltac run_lift H x :=
  unfold bind at 1 in H; destruct x;
  [rewrite lift_inl in H | rewrite lift_inr in H];
  cbv beta iota in H.

Ltac run_progress H env m :=
  unfold bind at 1, progress at 1 in H;
  destruct (progress_callback env m) eqn:?;
  cbv beta iota in H.

(** Rewrite the trace of every world met so far into the trace at the
    start followed by the events since. *)
Ltac unroll_trace :=
  unfold emit; cbn [trace];
  repeat (match goal with
          | E : trace ?x = _ |- context [trace ?x] => rewrite E
          end; unfold emit; cbn [trace]);
  repeat rewrite <- app_assoc; cbn [app].

(** The branch of a run that stopped outside the save: what it
    delivered is a proper prefix of the script. *)
Ltac stopped H :=
  injection H as <- <-;
  eexists _, _, _, _;
  split;
  [ left; eexists; split;
    [ unfold script; unroll_trace; reflexivity
    | split;
      [ let Hnil := fresh "Hnil" in
        intro Hnil; apply (f_equal (@length event)) in Hnil;
        cbn [length] in Hnil; rewrite ?length_app in Hnil;
        cbn [length] in Hnil; lia
      | split;
        [ cbn [length]; rewrite ?length_app; cbn [length]; lia
        | let Hlen := fresh "Hlen" in
          intros Hlen;
          first
            [ exfalso; cbn [length] in Hlen; rewrite ?length_app in Hlen;
              cbn [length] in Hlen; lia
            | auto ] ] ] ]
  | split; first [eassumption | constructor] ].

Lemma kept_prefix_sorted ct n js rest :
  filter (positive_interval ct) (seq 0 n) = js ++ rest ->
  StronglySorted lt js /\ Forall (fun i => (i < n)%nat) js.
Proof.
  intros H. split.
  - assert (Hs : StronglySorted lt (js ++ rest)).
    { rewrite <- H. apply filter_sorted, seq_sorted. }
    clear H. induction js as [|j js IH]; [constructor|].
    simpl in Hs. inversion Hs as [|? ? Hs' Hall]; subst.
    constructor; [now apply IH|].
    apply Forall_app in Hall. tauto.
  - apply Forall_forall. intros i Hi.
    assert (Hin : In i (filter (positive_interval ct) (seq 0 n))).
    { rewrite H. apply in_or_app. now left. }
    apply filter_In in Hin. destruct Hin as [Hin _].
    apply in_seq in Hin. lia.
Qed.

Lemma mix_audio_trace env a fv w r w1 :
  mix_audio env a fv w = (r, w1) ->
  (trace w1 = trace w /\ exists e, r = inl e) \/
  trace w1 = trace w ++ [Progress "Merging audio..."].
Proof.
  unfold mix_audio. intros H.
  unfold bind at 1, progress at 1 in H.
  destruct (progress_callback env _); cbv beta iota in H.
  { injection H as <- <-. left. eauto. }
  right.
  run_lift H (AudioFileClip env a); [now injection H as <- <-|].
  run_lift H (asubclip (AudioFile a q) 0 (vduration fv));
    [now injection H as <- <-|].
  unfold bind at 1 in H. destruct (vaudio fv); unfold raise, ret in H;
    cbv beta iota in H; [|now injection H as <- <-].
  run_lift H (CompositeAudioClip
                [AVolumex a1 (1 # 2); AVolumex a0 (1 # 2)]);
    [now injection H as <- <-|].
  unfold ret in H. now injection H as <- <-.
Qed.

(** Whatever the libraries and the callback answer, the events of the
    [try] body are a prefix of the script, all of it exactly when no
    exception is raised.  When [write_videofile] itself raises, the
    prefix stops before the write and the failed call follows it; an
    exception that comes after the write is raised by the last callback
    or by the success dialog. *)
Lemma try_script env a v o w r w' :
  process_files_try env a v o w = (r, w') ->
  exists total js fv fps,
    match r with
    | inr _ => trace w ++ script total js fv o fps = trace w'
    | inl e =>
        (exists rest,
            trace w ++ script total js fv o fps = trace w' ++ rest /\
            rest <> [] /\
            length rest <> 3%nat /\
            ((length rest <= 2)%nat ->
             progress_callback env "Process completed!" = Some e \/
             messagebox_showinfo env "Success"
                                 "The video was successfully created!"
             = Some e))
        \/
        (exists body,
            trace w' = body ++ [WriteFailed fv o] /\
            trace w ++ script total js fv o fps =
            body ++ [WriteVideoFile fv o fps "aac" 4;
                     Progress "Process completed!";
                     ShowInfo "Success" "The video was successfully created!"] /\
            write_videofile env fv o = Some e)
    end /\
    StronglySorted lt js /\
    Forall (fun i => (i < total)%nat) js.
Proof.
  intros H. unfold process_files_try in H.
  run_lift H (librosa_load env a); [stopped H|].
  destruct p as [y_len sr].
  run_progress H env "Calculating STFT..."%string; [stopped H|].
  run_lift H (stft_bass_energy env a); [stopped H|].
  run_progress H env "Detecting peak points..."%string; [stopped H|].
  run_lift H (detect_cut_times (peak_height env) sr
                                (Librosa.get_duration y_len sr) l);
    [stopped H|].
  run_progress H env "Loading video..."%string; [stopped H|].
  run_lift H (VideoFileClip env v); [stopped H|].
  destruct p as [[duration fps] has_audio].
  set (video := VideoFile v duration fps has_audio) in *.
  unfold bind at 1 in H.
  destruct (make_clips env video l0 _) as [[e|clips] w1] eqn:Hloop;
    unfold make_clips in Hloop; apply for_each_trace in Hloop;
    destruct Hloop as (js & rest' & Hjs & Ht & Hrest);
    destruct (kept_prefix_sorted _ _ _ _ Hjs) as [Hsorted Hbound];
    [stopped H|].
  run_progress H env "Concatenating clips..."%string; [stopped H|].
  run_lift H (concatenate_videoclips clips); [stopped H|].
  unfold bind at 1 in H.
  destruct (mix_audio env a v0 _) as [[e|final_video] w2] eqn:Hmix;
    apply mix_audio_trace in Hmix.
  { destruct Hmix as [[Hmix _]|Hmix]; stopped H. }
  destruct Hmix as [Hmix|Hmix]; [destruct Hmix as [_ [? Hmix]]; discriminate|].
  run_progress H env "Saving video..."%string; [stopped H|].
  unfold bind at 1, save at 1 in H.
  destruct (write_videofile env final_video o) eqn:Hwrite;
    cbv beta iota in H.
  { injection H as <- <-.
    exists (length l0 - 1)%nat, js, final_video, (vfps video).
    split; [|split; assumption].
    right. eexists. split; [unfold emit; cbn [trace]; reflexivity|].
    split; [unfold script; unroll_trace; reflexivity | assumption]. }
  run_progress H env "Process completed!"%string; [stopped H|].
  unfold showinfo in H.
  destruct (messagebox_showinfo env _ _) eqn:?; [stopped H|].
  injection H as <- <-.
  eexists _, _, _, _.
  split; [unfold script; unroll_trace; reflexivity|].
  split; eassumption.
  Unshelve.
  all: first [exact 0%nat | exact 0 | exact (VConcat []) | exact (@nil nat)].
Qed.

(** ** The audio of the concatenation *)

Lemma sampled_start_nonneg env vd cd k :
  0 <= random_random env k -> 0 <= sampled_start env vd cd k.
Proof.
  intros Hu. unfold sampled_start, uniform.
  destruct (py_max_0 (vd - cd)) as (Hm & _).
  assert (H : 0 <= py_max 0 (vd - cd) * random_random env k)
    by (apply Qmult_le_0_compat; assumption).
  lra.
Qed.

(** With draws in the unit interval, a loop that ends without an
    exception has appended the planned clips. *)
Lemma for_each_success env video ct total :
  fair env ->
  forall idx clips w cs w',
    for_each (clip_step env video (vduration video) ct total) idx clips w =
    (inr cs, w') ->
    cs = clips ++ planned env video ct idx (draws w).
Proof.
  intros Hf. induction idx as [|i idx IH]; intros clips w cs w' H; simpl in H.
  - injection H as <- _. now rewrite app_nil_r.
  - unfold bind in H. simpl. destruct (positive_interval ct i) eqn:Hpos.
    + pose proof Hpos as Hcd. apply positive_interval_true in Hcd.
      unfold clip_step in H. fold (interval ct i) in H.
      unfold positive_interval in Hpos. apply negb_true_iff in Hpos.
      rewrite Hpos in H. unfold bind, random_uniform in H.
      fold (sampled_start env (vduration video) (interval ct i) (draws w)) in H.
      set (s := sampled_start env (vduration video) (interval ct i) (draws w))
        in *.
      assert (Hs : 0 <= s) by (apply sampled_start_nonneg, Hf).
      unfold subclip in H.
      assert (E1 : Qltb s 0 = false) by (now apply Qltb_ge).
      assert (E3 : Qltb (s + interval ct i) 0 = false)
        by (apply Qltb_ge; lra).
      rewrite E1, E3 in H.
      destruct (Qltb (vduration video) s); simpl in H; [discriminate|].
      unfold progress in H. simpl in H.
      destruct (progress_callback env _); [discriminate|].
      apply IH in H. simpl in H. now rewrite <- app_assoc in H.
    + rewrite clip_step_skip in H by assumption. eapply IH, H.
Qed.

Lemma planned_cuts env video ct idx : forall k,
  Forall (cut_of video) (planned env video ct idx k).
Proof.
  induction idx as [|i idx IH]; intros k; simpl; [constructor|].
  destruct (positive_interval ct i) eqn:Hpos; [|apply IH].
  constructor; [|apply IH].
  apply positive_interval_true in Hpos.
  eexists _, _. split; [reflexivity|]. lra.
Qed.

Lemma aduration_composite clips :
  aduration (AComposite clips) = max_list (map aend clips).
Proof. reflexivity. Qed.

(** The ends of the audio tracks of a concatenation rise with the
    running sum of the clip durations. *)
Lemma concat_audio_end video va clips :
  vaudio video = Some va ->
  Forall (cut_of video) clips ->
  forall t acc sm, acc == t -> sm == t ->
    fold_left py_max
      (map aend (audio_t (map (fun c => (vaudio c, vduration c)) clips) t))
      acc ==
    fold_left Qplus (map vduration clips) sm.
Proof.
  intros Hva. induction 1 as [|c clips (s & e & -> & Hd) Hcs IH];
    intros t acc sm Hacc Hsm.
  - simpl. now rewrite Hacc, Hsm.
  - cbn [map vaudio vduration]. rewrite Hva. cbn [option_map audio_t map].
    cbn [fold_left]. apply IH.
    + unfold aend, py_max. cbn [astart aduration].
      destruct (Qltb acc (t + (e - s))) eqn:E; [reflexivity|].
      apply Qltb_ge in E. lra.
    + lra.
Qed.

Lemma concat_audio_duration video va clips :
  vaudio video = Some va -> clips <> [] ->
  Forall (cut_of video) clips ->
  exists native,
    vaudio (VConcat clips) = Some native /\
    aduration native == vduration (VConcat clips).
Proof.
  intros Hva Hne Hcuts.
  destruct Hcuts as [|c clips (s & e & -> & Hd) Hcs]; [congruence|].
  cbn [vaudio map vduration]. rewrite Hva. cbn [option_map audio_t].
  eexists. split; [reflexivity|].
  rewrite aduration_composite. cbn [map max_list fold_left].
  apply (concat_audio_end video va clips Hva Hcs (0 + (e - s))).
  - unfold aend. cbn [astart aduration]. reflexivity.
  - reflexivity.
Qed.

Lemma concat_no_audio video clips :
  vaudio video = None -> Forall (cut_of video) clips ->
  vaudio (VConcat clips) = None.
Proof.
  intros Hva Hcuts. cbn [vaudio].
  assert (H : forall t,
             audio_t (map (fun c => (vaudio c, vduration c)) clips) t = []).
  { induction Hcuts as [|c clips (s & e & -> & Hd) Hcs IH]; intros t;
      [reflexivity|].
    cbn [map vaudio]. rewrite Hva. cbn [option_map audio_t]. apply IH. }
  now rewrite H.
Qed.

Lemma concat_duration_nonneg video clips :
  Forall (cut_of video) clips ->
  forall sm, 0 <= sm -> 0 <= fold_left Qplus (map vduration clips) sm.
Proof.
  induction 1 as [|c clips (s & e & -> & Hd) Hcs IH]; intros sm Hsm;
    [assumption|].
  cbn [map vduration fold_left]. apply IH. lra.
Qed.

(** ** C7: the mixed audio track *)

Lemma mix_audio_success env a fv w fv' w1 :
  0 <= vduration fv ->
  mix_audio env a fv w = (inr fv', w1) ->
  exists native song_len,
    vaudio fv = Some native /\
    AudioFileClip env a = inr song_len /\
    fv' = VSetAudio fv (mixed_track native a song_len fv).
Proof.
  intros Hd H. unfold mix_audio in H.
  unfold bind at 1, progress at 1 in H.
  destruct (progress_callback env _); cbv beta iota in H; [discriminate|].
  unfold bind at 1 in H.
  destruct (AudioFileClip env a) as [e|song_len];
    [rewrite lift_inl in H; discriminate|].
  rewrite lift_inr in H. cbv beta iota in H.
  unfold bind at 1, asubclip in H.
  assert (E : Qltb (vduration fv) 0 = false) by (now apply Qltb_ge).
  rewrite E in H. simpl in H.
  destruct (Qltb song_len 0); simpl in H; [discriminate|].
  unfold bind at 1 in H.
  destruct (vaudio fv) as [native|]; simpl in H; [|discriminate].
  injection H as <- _. eauto.
Qed.

(** C7.  In every run that ends without an exception (the draws of
    [random()] lying in the unit interval) the file is written with the
    audio track that mixes the own audio of the concatenated video and
    the song cut to the duration of the concatenated video, each at
    half volume, and the duration of this track is the duration of the
    video written. *)
Theorem mixed_audio_track
        (env : Env) (a v o : string) (w w' : world) :
  fair env ->
  process_files_try env a v o w = (inr tt, w') ->
  exists clips native song_len fps,
    let final_video := VConcat clips in
    let mixed := mixed_track native a song_len final_video in
    In (WriteVideoFile (VSetAudio final_video mixed) o fps "aac" 4)
       (trace w') /\
    vaudio final_video = Some native /\
    AudioFileClip env a = inr song_len /\
    aduration mixed == vduration (VSetAudio final_video mixed).
Proof.
  intros Hf H. unfold process_files_try in H.
  run_lift H (librosa_load env a); [discriminate|].
  destruct p as [y_len sr].
  run_progress H env "Calculating STFT..."%string; [discriminate|].
  run_lift H (stft_bass_energy env a); [discriminate|].
  run_progress H env "Detecting peak points..."%string; [discriminate|].
  run_lift H (detect_cut_times (peak_height env) sr
                                (Librosa.get_duration y_len sr) l);
    [discriminate|].
  run_progress H env "Loading video..."%string; [discriminate|].
  run_lift H (VideoFileClip env v); [discriminate|].
  destruct p as [[duration fps] has_audio].
  set (video := VideoFile v duration fps has_audio) in *.
  unfold bind at 1 in H.
  destruct (make_clips env video l0 _) as [[e|clips] w1] eqn:Hloop;
    [discriminate|].
  unfold make_clips in Hloop. apply for_each_success in Hloop; [|assumption].
  simpl app in Hloop.
  assert (Hcuts : Forall (cut_of video) clips).
  { rewrite Hloop. apply planned_cuts. }
  clear Hloop.
  run_progress H env "Concatenating clips..."%string; [discriminate|].
  unfold bind at 1 in H.
  destruct clips as [|c clips]; [discriminate|].
  cbn [concatenate_videoclips] in H.
  rewrite lift_inr in H. cbv beta iota in H.
  set (final_video := VConcat (c :: clips)) in *.
  assert (Hd : 0 <= vduration final_video).
  { apply (concat_duration_nonneg video (c :: clips) Hcuts 0). lra. }
  unfold bind at 1 in H.
  destruct (mix_audio env a final_video _) as [[e|fv'] w2] eqn:Hmix;
    [discriminate|].
  apply mix_audio_success in Hmix; [|assumption].
  destruct Hmix as (native & song_len & Hnative & Hsong & ->).
  run_progress H env "Saving video..."%string; [discriminate|].
  unfold bind at 1, save at 1 in H.
  destruct (write_videofile env _ o); cbv beta iota in H; [discriminate|].
  run_progress H env "Process completed!"%string; [discriminate|].
  unfold showinfo in H.
  destruct (messagebox_showinfo env _ _); [discriminate|].
  injection H as <-.
  exists (c :: clips), native, song_len, (vfps video).
  cbv zeta. fold final_video.
  split; [|split; [assumption|split; [assumption|]]].
  - unfold emit. cbn [trace]. apply in_or_app. left.
    apply in_or_app. left. apply in_or_app. right. now left.
  - destruct has_audio.
    + destruct (concat_audio_duration video (VideoTrack v duration)
                                      (c :: clips))
        as (native' & Hn' & Hdur); [reflexivity|discriminate|assumption|].
      fold final_video in Hn', Hdur.
      assert (native' = native) by congruence. subst native'.
      unfold mixed_track. rewrite aduration_composite.
      cbn [map max_list fold_left vduration]. fold (vduration final_video).
      unfold aend, py_max. cbn [astart aduration].
      assert (Hs : astart native == 0).
      { unfold final_video in Hnative. cbn [vaudio] in Hnative.
        destruct (audio_t _ 0); [discriminate|].
        injection Hnative as <-. reflexivity. }
      destruct (Qltb _ _) eqn:E.
      * ring.
      * rewrite Hs, Hdur. ring.
    + unfold final_video in Hnative.
      rewrite (concat_no_audio video (c :: clips)) in Hnative;
        [discriminate|reflexivity|assumption].
Qed.

Lemma mixed_audio_track_witness :
  exists clips native song_len fps,
    let final_video := VConcat clips in
    let mixed := mixed_track native "a.mp3" song_len final_video in
    In (WriteVideoFile (VSetAudio final_video mixed) "o.mp4" fps "aac" 4)
       (trace (snd (process_files_try demo "a.mp3" "v.mp4" "o.mp4" start))) /\
    vaudio final_video = Some native /\
    AudioFileClip demo "a.mp3" = inr song_len /\
    aduration mixed == vduration (VSetAudio final_video mixed).
Proof.
  apply (mixed_audio_track demo "a.mp3" "v.mp4" "o.mp4" start).
  - exact demo_fair.
  - vm_compute. reflexivity.
Defined.

(** ** Shape of the script *)

Lemma progress_of_app t1 t2 :
  progress_of (t1 ++ t2) = progress_of t1 ++ progress_of t2.
Proof.
  induction t1 as [|[m| | | |] t1 IH]; simpl; congruence.
Qed.

Lemma progress_of_map l : progress_of (map Progress l) = l.
Proof. induction l; simpl; congruence. Qed.

Lemma script_progress total js fv o fps :
  progress_of (script total js fv o fps) = stage_order total js.
Proof.
  unfold script, stage_order.
  rewrite !progress_of_app, progress_of_map. reflexivity.
Qed.

Lemma filter_write_map l : filter is_write (map Progress l) = [].
Proof. induction l; simpl; auto. Qed.

Lemma script_writes total js fv o fps :
  filter is_write (script total js fv o fps) =
  [WriteVideoFile fv o fps "aac" 4].
Proof.
  unfold script. rewrite !filter_app, filter_write_map. reflexivity.
Qed.

Lemma dialog_free_map l :
  Forall (fun ev => is_dialog ev = false) (map Progress l).
Proof. induction l; simpl; constructor; auto. Qed.

(** The script is free of dialogs up to its last event, the success
    dialog. *)
Lemma script_dialog total js fv o fps :
  exists init,
    script total js fv o fps =
    init ++ [ShowInfo "Success" "The video was successfully created!"] /\
    Forall (fun ev => is_dialog ev = false) init.
Proof.
  exists ([Progress "Calculating STFT..."; Progress "Detecting peak points...";
           Progress "Loading video..."]
          ++ map Progress (segment_messages total js)
          ++ [Progress "Concatenating clips..."; Progress "Merging audio...";
              Progress "Saving video...";
              WriteVideoFile fv o fps "aac" 4;
              Progress "Process completed!"]).
  split.
  - unfold script. rewrite <- !app_assoc. reflexivity.
  - apply Forall_app. split; [repeat constructor|].
    apply Forall_app. split; [apply dialog_free_map | repeat constructor].
Qed.

Lemma proper_prefix_dialog_free total js fv o fps t rest :
  script total js fv o fps = t ++ rest -> rest <> [] ->
  Forall (fun ev => is_dialog ev = false) t.
Proof.
  intros H Hne.
  destruct (script_dialog total js fv o fps) as (init & Hs & Hfree).
  rewrite Hs in H. apply app_eq_app in H.
  destruct H as [l [[H1 H2]|[H1 H2]]].
  - rewrite H1 in Hfree. apply Forall_app in Hfree. tauto.
  - destruct l as [|x l].
    + rewrite app_nil_r in H1. now subst.
    + exfalso. simpl in H2. injection H2 as _ H2.
      symmetry in H2. apply app_eq_nil in H2. tauto.
Qed.

(** A prefix of the script that holds the write leaves at most the last
    two events of the script undone. *)
Lemma written_prefix total js fv o fps t rest :
  script total js fv o fps = t ++ rest ->
  filter is_write t <> [] -> (length rest <= 2)%nat.
Proof.
  intros H Hw.
  pose proof (script_writes total js fv o fps) as Hf.
  rewrite H, filter_app in Hf.
  assert (Hrest : filter is_write rest = []).
  { destruct (filter is_write t); [congruence|].
    simpl in Hf. injection Hf as _ Hf. now apply app_eq_nil in Hf. }
  clear Hf Hw. unfold script in H.
  rewrite app_assoc in H.
  change [Progress "Concatenating clips..."; Progress "Merging audio...";
          Progress "Saving video..."; WriteVideoFile fv o fps "aac" 4;
          Progress "Process completed!";
          ShowInfo "Success" "The video was successfully created!"]
    with ([Progress "Concatenating clips..."; Progress "Merging audio...";
           Progress "Saving video..."]
          ++ WriteVideoFile fv o fps "aac" 4
             :: [Progress "Process completed!";
                 ShowInfo "Success" "The video was successfully created!"])
    in H.
  rewrite app_assoc in H. symmetry in H. apply app_eq_app in H.
  destruct H as [l [[H1 H2]|[H1 H2]]].
  - destruct l as [|x l]; simpl in H2.
    + rewrite <- H2 in Hrest. discriminate.
    + injection H2 as _ H2.
      assert (Hl : length (l ++ rest) = 2%nat) by now rewrite <- H2.
      rewrite length_app in Hl. lia.
  - rewrite H2, filter_app in Hrest. apply app_eq_nil in Hrest.
    destruct Hrest as [_ Hrest]. discriminate.
Qed.

(** A prefix of the script holds no call of [write_videofile] or the
    one call of the script. *)
Lemma prefix_writes total js fv o fps t rest :
  script total js fv o fps = t ++ rest ->
  filter is_write t = [] \/
  filter is_write t = [WriteVideoFile fv o fps "aac" 4].
Proof.
  intros H. pose proof (script_writes total js fv o fps) as Hf.
  rewrite H, filter_app in Hf.
  destruct (filter is_write t) as [|x l]; [now left|right].
  simpl in Hf. injection Hf as -> Hf.
  apply app_eq_nil in Hf. destruct Hf as [-> _]. reflexivity.
Qed.

(** What the script holds before the write: no dialog and no call of
    [write_videofile]. *)
Lemma before_write total js fv o fps body :
  script total js fv o fps =
  body ++ [WriteVideoFile fv o fps "aac" 4; Progress "Process completed!";
           ShowInfo "Success" "The video was successfully created!"] ->
  filter is_write body = [] /\
  Forall (fun ev => is_dialog ev = false) body.
Proof.
  intros H. split.
  - pose proof (script_writes total js fv o fps) as Hf.
    rewrite H, filter_app in Hf. cbn [filter is_write] in Hf.
    destruct (filter is_write body) as [|x l]; [reflexivity|].
    simpl in Hf. injection Hf as _ Hf. destruct l; discriminate.
  - eapply proper_prefix_dialog_free; [exact H | discriminate].
Qed.

(** ** C8: one error dialog for any exception *)

(** C8 (amended).  Whatever is raised inside the [try] of
    [process_files] is caught and shown as exactly one error dialog
    carrying its text, the last event of the run; what happened before
    it follows the script of an uninterrupted run, so nothing is run
    twice and [write_videofile] is called at most once.  A run that
    ends in the error dialog is in one of three states.  Either
    [write_videofile] has not been called: the run has put nothing at
    the output path.  Or [write_videofile] has been called and is what
    raised: the call is the last event before the dialog, and what it
    has put at the output path stays there, the handler removes
    nothing.  Or [write_videofile] has returned, the file is complete,
    and the exception comes from the last call of the callback or from
    the success dialog. *)
Theorem exception_single_error_dialog (env : Env) (a v o : string) :
  let t := trace (process_files env a v o start) in
  (length (filter is_write t) <= 1)%nat /\
  match process_files_try env a v o start with
  | (inr _, w') =>
      t = trace w' /\
      exists total js fv fps, t = script total js fv o fps
  | (inl e, w') =>
      t = trace w' ++ [ShowError "Error" ("An error occurred: " ++ e)] /\
      Forall (fun ev => is_dialog ev = false) (trace w') /\
      exists total js fv fps,
        (exists rest,
            script total js fv o fps = trace w' ++ rest /\ rest <> [] /\
            (filter is_write (trace w') = [] \/
             filter is_write (trace w') = [WriteVideoFile fv o fps "aac" 4] /\
             (progress_callback env "Process completed!" = Some e \/
              messagebox_showinfo env "Success"
                                  "The video was successfully created!"
              = Some e)))
        \/
        (exists body,
            trace w' = body ++ [WriteFailed fv o] /\
            script total js fv o fps =
            body ++ [WriteVideoFile fv o fps "aac" 4;
                     Progress "Process completed!";
                     ShowInfo "Success" "The video was successfully created!"] /\
            filter is_write body = [] /\
            write_videofile env fv o = Some e)
  end.
Proof.
  intros t. unfold t, process_files.
  destruct (process_files_try env a v o start) as [[e|u] w'] eqn:Hrun;
    apply try_script in Hrun;
    destruct Hrun as (total & js & fv & fps & Hs & _ & _).
  - destruct Hs as [(rest & Hs & Hr & _ & Hlate)|(body & Hw' & Hs & Hraised)];
      simpl in Hs.
    + destruct (prefix_writes _ _ _ _ _ _ _ Hs) as [Hw|Hw].
      * split; [unfold emit; cbn [trace]; rewrite filter_app, Hw; simpl; lia|].
        split; [reflexivity|].
        split; [eapply proper_prefix_dialog_free; eassumption|].
        exists total, js, fv, fps. left. exists rest. auto.
      * split; [unfold emit; cbn [trace]; rewrite filter_app, Hw; simpl; lia|].
        split; [reflexivity|].
        split; [eapply proper_prefix_dialog_free; eassumption|].
        exists total, js, fv, fps. left. exists rest.
        split; [assumption|]. split; [assumption|]. right.
        split; [assumption|]. apply Hlate.
        eapply written_prefix; [eassumption|]. rewrite Hw. discriminate.
    + destruct (before_write _ _ _ _ _ _ Hs) as [Hnone Hfree].
      split.
      * unfold emit. cbn [trace]. rewrite Hw', !filter_app, Hnone. simpl. lia.
      * split; [reflexivity|]. split.
        -- rewrite Hw'. apply Forall_app. split; [assumption|].
           repeat constructor.
        -- exists total, js, fv, fps. right. exists body. auto.
  - simpl in Hs. split.
    + rewrite <- Hs, script_writes. simpl. lia.
    + split; [reflexivity|]. eauto.
Qed.

(** The window is closed while the file is written: the file is there,
    complete, and the run still ends in the error dialog. *)
Lemma output_written_before_error :
  let t := trace (process_files window_closed "a.mp3" "v.mp4" "o.mp4" start) in
  exists w' body,
    process_files_try window_closed "a.mp3" "v.mp4" "o.mp4" start =
    (inl "main thread is not in main loop"%string, w') /\
    existsb is_written t = true /\
    t = body ++
        [ShowError "Error" "An error occurred: main thread is not in main loop"].
Proof.
  eexists _, _. split; [vm_compute; reflexivity|].
  split; [vm_compute; reflexivity|].
  vm_compute. match goal with
  | |- ?l = _ => let l' := eval vm_compute in (removelast l) in
                 instantiate (1 := l')
  end.
  reflexivity.
Qed.

(** The encoder fails in the middle of the file: the call of
    [write_videofile] is the last event before the error dialog, and
    nothing follows that would remove what it wrote. *)
Lemma failed_write_stays :
  let t := trace (process_files disk_full "a.mp3" "v.mp4" "o.mp4" start) in
  exists body fv,
    t = body ++
        [WriteFailed fv "o.mp4";
         ShowError "Error"
                   "An error occurred: [Errno 28] No space left on device"] /\
    filter is_write body = [].
Proof.
  vm_compute.
  match goal with
  | |- exists body fv, ?l = _ /\ _ =>
      let b := eval vm_compute in (removelast (removelast l)) in
      exists b
  end.
  eexists. split; reflexivity.
Qed.

(** ** C9: order of the status updates *)

(** C9 (amended).  In every run the messages delivered through the
    progress callback are an initial part of the stage order: STFT,
    peak detection, loading the video, the per-segment messages
    "i/total clips processed..." with rising i, concatenation, audio
    merge, save, completion.  A run without an exception delivers all
    of them and ends with the success dialog; a run with an exception
    ends with one error dialog that carries the text of the exception,
    and this text goes to the dialog, not through the callback. *)
Theorem status_updates_follow_stage_order (env : Env) (a v o : string) :
  let t := trace (process_files env a v o start) in
  exists total js later,
    StronglySorted lt js /\
    Forall (fun i => (i < total)%nat) js /\
    stage_order total js = progress_of t ++ later /\
    match process_files_try env a v o start with
    | (inr _, _) =>
        later = [] /\
        exists body,
          t = body ++ [ShowInfo "Success" "The video was successfully created!"] /\
          Forall (fun ev => is_dialog ev = false) body
    | (inl e, _) =>
        exists body,
          t = body ++ [ShowError "Error" ("An error occurred: " ++ e)] /\
          Forall (fun ev => is_dialog ev = false) body
    end.
Proof.
  intros t. unfold t, process_files.
  destruct (process_files_try env a v o start) as [[e|u] w'] eqn:Hrun;
    apply try_script in Hrun;
    destruct Hrun as (total & js & fv & fps & Hs & Hsorted & Hb);
    exists total, js.
  - destruct Hs as [(rest & Hs & Hr & _)|(body & Hw' & Hs & _)]; simpl in Hs.
    + exists (progress_of rest). repeat split; try assumption.
      * rewrite <- script_progress with (fv := fv) (o := o) (fps := fps).
        rewrite Hs. unfold emit. cbn [trace].
        rewrite !progress_of_app. simpl. now rewrite app_nil_r.
      * exists (trace w'). split; [reflexivity|].
        eapply proper_prefix_dialog_free; eassumption.
    + exists ["Process completed!"%string]. repeat split; try assumption.
      * rewrite <- script_progress with (fv := fv) (o := o) (fps := fps).
        unfold emit. cbn [trace]. rewrite Hs, Hw'.
        rewrite !progress_of_app. simpl. now rewrite !app_nil_r.
      * exists (trace w'). split; [reflexivity|].
        rewrite Hw'. apply Forall_app. split; [|repeat constructor].
        now apply (before_write _ _ _ _ _ _ Hs).
  - simpl in Hs. exists [].
    repeat split; try assumption.
    + rewrite <- script_progress with (fv := fv) (o := o) (fps := fps).
      now rewrite Hs, app_nil_r.
    + destruct (script_dialog total js fv o fps) as (init & Hi & Hfree).
      exists init. split; [congruence | assumption].
Qed.

(** The video file is missing: the callback has delivered three status
    messages, the last of them "Loading video..."; the text of the
    exception is in the error dialog only. *)
Lemma error_not_through_callback :
  let t := trace (process_files no_video "a.mp3" "v.mp4" "o.mp4" start) in
  progress_of t =
  ["Calculating STFT..."; "Detecting peak points..."; "Loading video..."]%string /\
  t = map Progress (progress_of t) ++
      [ShowError "Error"
         "An error occurred: MoviePy error: the file v.mp4 could not be found!"] /\
  ~ exists pre e, progress_of t = pre ++ [("An error occurred: " ++ e)%string].
Proof.
  split; [reflexivity|]. split; [reflexivity|].
  intros (pre & e & H). vm_compute in H.
  destruct pre as [|m1 [|m2 [|m3 [|m4 pre]]]]; simpl in H; discriminate.
Qed.

(** * Further properties of the code *)

(** ** Detection: lines 38-48 *)

Lemma fold_max_spec r : forall a,
  let m := fold_left py_max r a in
  (m = a \/ In m r) /\ a <= m /\ forall v, In v r -> v <= m.
Proof.
  induction r as [|b r IH]; intros a; simpl.
  - repeat split; [now left | lra | tauto].
  - destruct (IH (py_max a b)) as (Hin & Hle & Hall).
    assert (Hab : a <= py_max a b /\ b <= py_max a b /\
                  (py_max a b = a \/ py_max a b = b)).
    { unfold py_max. destruct (Qltb a b) eqn:E.
      - apply Qltb_lt in E. repeat split; try lra. now right.
      - apply Qltb_ge in E. repeat split; try lra. now left. }
    destruct Hab as (Ha & Hb & Hpick).
    repeat split.
    + destruct Hin as [Hin|Hin]; [|now right; right].
      rewrite Hin. destruct Hpick as [->| ->]; [now left | right; now left].
    + lra.
    + intros v [<-|Hv]; [lra | now apply Hall].
Qed.

(** [np.max] returns an element of the array that bounds all of it. *)
Lemma max_spec x m :
  Np.max x = Some m -> In m x /\ forall v, In v x -> v <= m.
Proof.
  destruct x as [|a r]; simpl; [discriminate|].
  intros H. injection H as <-.
  destruct (fold_max_spec r a) as (Hin & Hle & Hall). split.
  - destruct Hin as [->|Hin]; [now left | now right].
  - intros v [<-|Hv]; [assumption | now apply Hall].
Qed.

(** X1.  On every non-empty curve lines 38-48 raise nothing, and the cut
    times are in ascending order and hold 0, each peak time and the
    song duration exactly as often as they were put in: two more
    entries than there are peaks, none lost and none removed. *)
Theorem cut_times_ascending_permutation
        (height : Q -> Q) (sr : positive) (d : Q) (x : list Q) :
  x <> [] ->
  exists m ct,
    Np.max x = Some m /\
    detect_cut_times height sr d x = inr ct /\
    Sorted Qle ct /\
    Permutation
      (0 :: map (Librosa.frame_time sr) (Scipy.find_peaks x (height m))
         ++ [d]) ct /\
    length ct = (length (Scipy.find_peaks x (height m)) + 2)%nat.
Proof.
  intros Hx. destruct (max_nonempty x Hx) as [m Hm].
  exists m, (cut_times_of
               (map (Librosa.frame_time sr)
                    (Scipy.find_peaks x (height m))) d).
  destruct (cut_times_sorted
              (map (Librosa.frame_time sr)
                   (Scipy.find_peaks x (height m))) d) as [Hs Hp].
  repeat split; try assumption.
  - now apply detect_cut_times_run.
  - rewrite <- (Permutation_length Hp). simpl.
    rewrite length_app, length_map. simpl. lia.
Qed.

Lemma cut_times_ascending_permutation_witness :
  exists m ct,
    Np.max demo_curve = Some m /\
    detect_cut_times seven_tenths 256 3 demo_curve = inr ct /\
    Sorted Qle ct /\
    Permutation
      (0 :: map (Librosa.frame_time 256)
                (Scipy.find_peaks demo_curve (seven_tenths m))
         ++ [3]) ct /\
    length ct = (length (Scipy.find_peaks demo_curve (seven_tenths m)) + 2)%nat.
Proof.
  apply (cut_times_ascending_permutation seven_tenths 256 3 demo_curve).
  discriminate.
Defined.

(** X2.  Lines 38-48 raise in one case only, the empty curve, on which
    [np.max] has nothing to reduce; indexing [times] by the peaks never
    goes out of range. *)
Theorem detection_raises_on_empty_curve_only
        (height : Q -> Q) (sr : positive) (d : Q) (x : list Q) (e : exn) :
  detect_cut_times height sr d x = inl e <->
  x = [] /\
  e = "zero-size array to reduction operation maximum which has no identity"%string.
Proof.
  split.
  - intros H. destruct x as [|a r].
    + simpl in H. injection H as <-. auto.
    + destruct (max_nonempty (a :: r)) as [m Hm]; [discriminate|].
      rewrite (detect_cut_times_run height sr d _ m Hm) in H. discriminate.
  - intros [-> ->]. reflexivity.
Qed.

(** X3.  Every peak the detection keeps is a frame strictly inside the
    curve, lying on a plateau that is entered by a rise and left by a
    fall, whose energy is at least the height the code computes from
    the maximum of the curve, the float product
    [np.max(bass_energy) * 0.7]; the maximum is the largest value of the
    curve. *)
Theorem detected_peaks_are_high_local_maxima
        (height : Q -> Q) (x : list Q) :
  x <> [] ->
  exists m,
    Np.max x = Some m /\ In m x /\ (forall v, In v x -> v <= m) /\
    forall p, In p (Scipy.find_peaks x (height m)) ->
      (1 <= p)%nat /\ (p + 1 < length x)%nat /\
      height m <= nth p x 0 /\
      exists l r, plateau_peak x l r /\ (l <= p <= r)%nat.
Proof.
  intros Hx. destruct (max_nonempty x Hx) as [m Hm]. exists m.
  destruct (max_spec x m Hm) as [Hin Hall].
  repeat split; try assumption;
    destruct (find_peaks_sorted x (height m)) as [_ Hb];
    rewrite Forall_forall in Hb.
  - now apply Hb.
  - now apply Hb.
  - unfold Scipy.find_peaks in H. apply filter_In in H.
    now apply Qle_bool_iff.
  - unfold Scipy.find_peaks in H. apply filter_In in H.
    destruct H as [H _].
    pose proof (peaks_from_plateau x 1 _ (local_maxima_peaks x)) as Hp.
    rewrite Forall_forall in Hp. now apply Hp.
Qed.

Lemma detected_peaks_are_high_local_maxima_witness :
  exists m,
    Np.max plateau_curve = Some m /\ In m plateau_curve /\
    (forall v, In v plateau_curve -> v <= m) /\
    forall p, In p (Scipy.find_peaks plateau_curve (seven_tenths m)) ->
      (1 <= p)%nat /\ (p + 1 < length plateau_curve)%nat /\
      seven_tenths m <= nth p plateau_curve 0 /\
      exists l r, plateau_peak plateau_curve l r /\ (l <= p <= r)%nat.
Proof.
  apply (detected_peaks_are_high_local_maxima seven_tenths plateau_curve).
  discriminate.
Defined.

(** ** Every interval of a non-empty signal is cut *)







(** ** The loop: lines 58-76 *)

Lemma subclip_shape v s e c : subclip v s e = inr c -> subclip_of v c.
Proof.
  unfold subclip. intros H.
  destruct (Qltb (vduration v) _); [discriminate|].
  injection H as <-. eexists _, _. reflexivity.
Qed.

Lemma for_each_counts env video vd ct total : forall idx clips w cs w',
  for_each (clip_step env video vd ct total) idx clips w = (inr cs, w') ->
  exists new,
    cs = clips ++ new /\
    length new = length (filter (positive_interval ct) idx) /\
    draws w' = (draws w + length new)%nat /\
    Forall (subclip_of video) new.
Proof.
  induction idx as [|i idx IH]; intros clips w cs w' H; simpl in H.
  - injection H as <- <-. exists []. rewrite app_nil_r. simpl.
    repeat split; auto.
  - unfold bind in H. simpl. destruct (positive_interval ct i) eqn:Hpos.
    + unfold clip_step in H. fold (interval ct i) in H.
      unfold positive_interval in Hpos. apply negb_true_iff in Hpos.
      rewrite Hpos in H. unfold bind, random_uniform in H.
      destruct (subclip _ _ _) as [e|clip] eqn:Hclip; simpl in H;
        [discriminate|].
      apply subclip_shape in Hclip.
      unfold progress in H. simpl in H.
      destruct (progress_callback env _); [discriminate|].
      apply IH in H. destruct H as (new & -> & Hlen & Hd & Hall).
      exists (clip :: new). simpl in *.
      rewrite <- app_assoc. simpl.
      repeat split; [now rewrite Hlen | lia | now constructor].
    + rewrite clip_step_skip in H by assumption. eapply IH, H.
Qed.

(** X5.  Whatever the libraries and the callback answer, a loop that
    ends without an exception has cut one clip from the source video
    for each interval of strictly positive duration and none for the
    others, and has drawn from the random generator once per clip. *)
Theorem one_clip_and_one_draw_per_interval
        (env : Env) (video : vclip) (ct : list Q)
        (w w' : world) (clips : list vclip) :
  make_clips env video ct w = (inr clips, w') ->
  length clips = length (kept ct) /\
  draws w' = (draws w + length clips)%nat /\
  Forall (subclip_of video) clips.
Proof.
  intros H. unfold make_clips in H. apply for_each_counts in H.
  destruct H as (new & -> & Hlen & Hd & Hall). simpl.
  repeat split; assumption.
Qed.

Lemma one_clip_and_one_draw_per_interval_witness :
  length (planned demo demo_video duplicate_cuts (seq 0 3) 0) =
  length (kept duplicate_cuts) /\
  draws (snd (make_clips demo demo_video duplicate_cuts start)) =
  (draws start
   + length (planned demo demo_video duplicate_cuts (seq 0 3) 0))%nat /\
  Forall (subclip_of demo_video)
         (planned demo demo_video duplicate_cuts (seq 0 3) 0).
Proof.
  apply (one_clip_and_one_draw_per_interval
           demo demo_video duplicate_cuts start).
  vm_compute. reflexivity.
Defined.





Lemma one_clip_shape env video ct w clips w' :
  make_clips env video ct w = (inr clips, w') ->
  Forall (subclip_of video) clips.
Proof.
  intros H. unfold make_clips in H. apply for_each_counts in H.
  destruct H as (new & -> & _ & _ & Hall). exact Hall.
Qed.

(** ** Runs that cannot succeed *)

(** The branch of a run that stopped before the save: an exception, and
    no file written. *)
Ltac halted H :=
  injection H as <- <-;
  split;
  [ eauto
  | unroll_trace;
    first
      [ reflexivity
      | rewrite filter_app; cbn [filter is_write];
        rewrite ?filter_app, ?filter_write_map;
        cbn [filter is_write app]; rewrite ?app_nil_r; reflexivity ] ].

Lemma concat_silent video clips :
  vaudio video = None -> Forall (subclip_of video) clips ->
  vaudio (VConcat clips) = None.
Proof.
  intros Hva Hcuts. cbn [vaudio].
  assert (H : forall t,
             audio_t (map (fun c => (vaudio c, vduration c)) clips) t = []).
  { induction Hcuts as [|c clips (s & e & ->) Hcs IH]; intros t;
      [reflexivity|].
    cbn [map vaudio]. rewrite Hva. cbn [option_map audio_t]. apply IH. }
  now rewrite H.
Qed.

Lemma mix_audio_silent env a fv w r w1 :
  vaudio fv = None -> mix_audio env a fv w = (r, w1) -> exists e, r = inl e.
Proof.
  intros Hnone H. unfold mix_audio in H. rewrite Hnone in H.
  unfold bind at 1, progress at 1 in H.
  destruct (progress_callback env _); cbv beta iota in H;
    [injection H as <- _; eauto|].
  run_lift H (AudioFileClip env a); [injection H as <- _; eauto|].
  run_lift H (asubclip (AudioFile a q) 0 (vduration fv));
    [injection H as <- _; eauto|].
  unfold bind at 1, raise in H. injection H as <- _. eauto.
Qed.

Lemma silent_video_run env a v o w r w' d fps :
  VideoFileClip env v = inr (d, fps, false) ->
  process_files_try env a v o w = (r, w') ->
  (exists e, r = inl e) /\
  filter is_write (trace w') = filter is_write (trace w).
Proof.
  intros Hv H. unfold process_files_try in H.
  run_lift H (librosa_load env a); [halted H|].
  destruct p as [y_len sr].
  run_progress H env "Calculating STFT..."%string; [halted H|].
  run_lift H (stft_bass_energy env a); [halted H|].
  run_progress H env "Detecting peak points..."%string; [halted H|].
  run_lift H (detect_cut_times (peak_height env) sr
                                (Librosa.get_duration y_len sr) l);
    [halted H|].
  run_progress H env "Loading video..."%string; [halted H|].
  rewrite Hv in H. unfold bind at 1 in H. rewrite lift_inr in H.
  cbv beta iota in H.
  set (video := VideoFile v d fps false) in *.
  unfold bind at 1 in H.
  destruct (make_clips env video l0 _) as [[e|clips] w1] eqn:Hloop.
  { unfold make_clips in Hloop. apply for_each_trace in Hloop.
    destruct Hloop as (js & rest' & _ & Ht & _). halted H. }
  pose proof Hloop as Hshape.
  apply one_clip_shape in Hshape.
  unfold make_clips in Hloop. apply for_each_trace in Hloop.
  destruct Hloop as (js & rest' & _ & Ht & _).
  run_progress H env "Concatenating clips..."%string; [halted H|].
  unfold bind at 1 in H.
  destruct clips as [|c clips]; cbn [concatenate_videoclips] in H;
    [rewrite lift_inl in H; cbv beta iota in H; halted H|].
  rewrite lift_inr in H. cbv beta iota in H.
  assert (Hnone : vaudio (VConcat (c :: clips)) = None)
    by (now apply (concat_silent video)).
  unfold bind at 1 in H.
  destruct (mix_audio env a _ _) as [[e|final_video] w2] eqn:Hmix.
  - apply mix_audio_trace in Hmix.
    destruct Hmix as [[Hmix _]|Hmix]; halted H.
  - apply mix_audio_silent in Hmix; [|assumption].
    destruct Hmix as [e Hmix]. discriminate.
Qed.

(** X9.  A source video without an audio track can never be processed:
    whatever else happens, the run raises (at the latest when the
    missing audio is asked for its half-volume copy), ends in the error
    dialog, and writes no file. *)
Theorem silent_video_is_never_written
        (env : Env) (a v o : string) (w : world) (d fps : Q) :
  VideoFileClip env v = inr (d, fps, false) ->
  exists e w',
    process_files_try env a v o w = (inl e, w') /\
    trace (process_files env a v o w) =
    trace w' ++ [ShowError "Error" ("An error occurred: " ++ e)] /\
    filter is_write (trace (process_files env a v o w)) =
    filter is_write (trace w).
Proof.
  intros Hv. unfold process_files.
  destruct (process_files_try env a v o w) as [r w'] eqn:Hrun.
  destruct (silent_video_run env a v o w r w' d fps Hv Hrun)
    as [[e ->] Hw].
  exists e, w'. split; [reflexivity|]. split; [reflexivity|].
  unfold emit. cbn [trace]. rewrite filter_app, Hw. simpl.
  now rewrite app_nil_r.
Qed.

Lemma silent_video_is_never_written_witness :
  exists e w',
    process_files_try silent_video "a.mp3" "v.mp4" "o.mp4" start =
    (inl e, w') /\
    trace (process_files silent_video "a.mp3" "v.mp4" "o.mp4" start) =
    trace w' ++ [ShowError "Error" ("An error occurred: " ++ e)] /\
    filter is_write
           (trace (process_files silent_video "a.mp3" "v.mp4" "o.mp4" start)) =
    filter is_write (trace start).
Proof.
  apply (silent_video_is_never_written
           silent_video "a.mp3" "v.mp4" "o.mp4" start 30 25).
  reflexivity.
Defined.

(** On the sample video without sound the exception is the missing
    attribute of [None], raised after "Merging audio...". *)
Example silent_video_error :
  fst (process_files_try silent_video "a.mp3" "v.mp4" "o.mp4" start) =
  inl "'NoneType' object has no attribute 'volumex'"%string /\
  last (progress_of
          (trace (process_files silent_video "a.mp3" "v.mp4" "o.mp4" start)))
       EmptyString = "Merging audio..."%string.
Proof. split; vm_compute; reflexivity. Qed.

Lemma no_clip_run env a v o w r w' n sr x ct :
  librosa_load env a = inr (n, sr) ->
  stft_bass_energy env a = inr x ->
  detect_cut_times (peak_height env) sr (Librosa.get_duration n sr) x =
  inr ct ->
  kept ct = [] ->
  process_files_try env a v o w = (r, w') ->
  (exists e, r = inl e) /\
  filter is_write (trace w') = filter is_write (trace w).
Proof.
  intros Hload Hstft Hct Hkept H. unfold process_files_try in H.
  rewrite Hload in H. unfold bind at 1 in H. rewrite lift_inr in H.
  cbv beta iota in H.
  run_progress H env "Calculating STFT..."%string; [halted H|].
  rewrite Hstft in H. unfold bind at 1 in H. rewrite lift_inr in H.
  cbv beta iota in H.
  run_progress H env "Detecting peak points..."%string; [halted H|].
  rewrite Hct in H. unfold bind at 1 in H. rewrite lift_inr in H.
  cbv beta iota in H.
  run_progress H env "Loading video..."%string; [halted H|].
  run_lift H (VideoFileClip env v); [halted H|].
  destruct p as [[duration fps] has_audio].
  set (video := VideoFile v duration fps has_audio) in *.
  unfold bind at 1 in H.
  destruct (make_clips env video ct _) as [[e|clips] w1] eqn:Hloop.
  { unfold make_clips in Hloop. apply for_each_trace in Hloop.
    destruct Hloop as (js & rest' & _ & Ht & _). halted H. }
  pose proof Hloop as Hcount.
  unfold make_clips in Hcount. apply for_each_counts in Hcount.
  destruct Hcount as (new & -> & Hlen & _ & _).
  fold (kept ct) in Hlen. rewrite Hkept in Hlen.
  destruct new; [|discriminate]. simpl app in *.
  unfold make_clips in Hloop. apply for_each_trace in Hloop.
  destruct Hloop as (js & rest' & _ & Ht & _).
  run_progress H env "Concatenating clips..."%string; [halted H|].
  unfold bind at 1 in H. cbn [concatenate_videoclips] in H.
  rewrite lift_inl in H. cbv beta iota in H. halted H.
Qed.

(** X10.  A signal without samples (one frame, duration 0) can never be
    processed: its only cut interval has no duration, no clip is cut,
    and the run raises (at the latest when the empty list of clips is
    concatenated), ends in the error dialog, and writes no file. *)
Theorem empty_signal_is_never_written
        (env : Env) (a v o : string) (w : world)
        (sr : positive) (x : list Q) :
  librosa_load env a = inr (0%nat, sr) ->
  stft_bass_energy env a = inr x ->
  length x = Librosa.n_frames 0 ->
  exists e w',
    process_files_try env a v o w = (inl e, w') /\
    trace (process_files env a v o w) =
    trace w' ++ [ShowError "Error" ("An error occurred: " ++ e)] /\
    filter is_write (trace (process_files env a v o w)) =
    filter is_write (trace w).
Proof.
  intros Hload Hstft Hlen.
  destruct x as [|v0 [|v1 x]]; try discriminate.
  unfold process_files.
  destruct (process_files_try env a v o w) as [r w'] eqn:Hrun.
  destruct (no_clip_run env a v o w r w' 0 sr [v0] [0; 0 # sr]
                        Hload Hstft eq_refl eq_refl Hrun)
    as [[e ->] Hw].
  exists e, w'. split; [reflexivity|]. split; [reflexivity|].
  unfold emit. cbn [trace]. rewrite filter_app, Hw. simpl.
  now rewrite app_nil_r.
Qed.

Lemma empty_signal_is_never_written_witness :
  exists e w',
    process_files_try empty_song "a.mp3" "v.mp4" "o.mp4" start =
    (inl e, w') /\
    trace (process_files empty_song "a.mp3" "v.mp4" "o.mp4" start) =
    trace w' ++ [ShowError "Error" ("An error occurred: " ++ e)] /\
    filter is_write
           (trace (process_files empty_song "a.mp3" "v.mp4" "o.mp4" start)) =
    filter is_write (trace start).
Proof.
  apply (empty_signal_is_never_written
           empty_song "a.mp3" "v.mp4" "o.mp4" start 22050 [0]);
    reflexivity.
Defined.

(** ** A run without an exception *)

Ltac run_lift_eq H x :=
  unfold bind at 1 in H; destruct x eqn:?;
  [rewrite lift_inl in H | rewrite lift_inr in H];
  cbv beta iota in H.

(** X11.  A run whose [try] body raises nothing has delivered, after
    the three opening messages, one message "i/total" for each interval
    of positive duration of its cut times and for no other, with total
    the number of all intervals, then the three closing messages; it
    has written the file once, at the output path, with the frame rate
    of the source video, codec aac and 4 threads, and has then shown
    the completion message and the success dialog. *)
Theorem successful_run_events
        (env : Env) (a v o : string) (w w' : world) :
  process_files_try env a v o w = (inr tt, w') ->
  exists n sr x ct d fps has_audio final_video,
    librosa_load env a = inr (n, sr) /\
    stft_bass_energy env a = inr x /\
    detect_cut_times (peak_height env) sr (Librosa.get_duration n sr) x =
    inr ct /\
    VideoFileClip env v = inr (d, fps, has_audio) /\
    trace w' =
    trace w ++ script (length ct - 1) (kept ct) final_video o fps.
Proof.
  intros H. unfold process_files_try in H.
  run_lift_eq H (librosa_load env a); [discriminate|].
  destruct p as [y_len sr].
  run_progress H env "Calculating STFT..."%string; [discriminate|].
  run_lift_eq H (stft_bass_energy env a); [discriminate|].
  run_progress H env "Detecting peak points..."%string; [discriminate|].
  run_lift_eq H (detect_cut_times (peak_height env) sr
                                (Librosa.get_duration y_len sr) l);
    [discriminate|].
  run_progress H env "Loading video..."%string; [discriminate|].
  run_lift_eq H (VideoFileClip env v); [discriminate|].
  destruct p as [[duration fps] has_audio].
  set (video := VideoFile v duration fps has_audio) in *.
  unfold bind at 1 in H.
  destruct (make_clips env video l0 _) as [[e|clips] w1] eqn:Hloop;
    [discriminate|].
  unfold make_clips in Hloop. apply for_each_trace in Hloop.
  destruct Hloop as (js & rest' & Hjs & Ht & Hrest).
  rewrite (Hrest clips eq_refl), app_nil_r in Hjs. subst js.
  fold (kept l0) in Ht.
  run_progress H env "Concatenating clips..."%string; [discriminate|].
  run_lift H (concatenate_videoclips clips); [discriminate|].
  unfold bind at 1 in H.
  destruct (mix_audio env a v0 _) as [[e|final_video] w2] eqn:Hmix;
    [discriminate|].
  apply mix_audio_trace in Hmix.
  destruct Hmix as [[_ [? Hmix]]|Hmix]; [discriminate|].
  run_progress H env "Saving video..."%string; [discriminate|].
  unfold bind at 1, save at 1 in H.
  destruct (write_videofile env final_video o); cbv beta iota in H;
    [discriminate|].
  run_progress H env "Process completed!"%string; [discriminate|].
  unfold showinfo in H.
  destruct (messagebox_showinfo env _ _); [discriminate|].
  injection H as <-.
  exists y_len, sr, l, l0, duration, fps, has_audio, final_video.
  repeat split; try assumption.
  unfold script. unroll_trace. reflexivity.
Qed.

Lemma successful_run_events_witness :
  exists n sr x ct d fps has_audio final_video,
    librosa_load demo "a.mp3" = inr (n, sr) /\
    stft_bass_energy demo "a.mp3" = inr x /\
    detect_cut_times (peak_height demo) sr (Librosa.get_duration n sr) x =
    inr ct /\
    VideoFileClip demo "v.mp4" = inr (d, fps, has_audio) /\
    trace (snd (process_files_try demo "a.mp3" "v.mp4" "o.mp4" start)) =
    trace start ++ script (length ct - 1) (kept ct) final_video "o.mp4" fps.
Proof.
  apply (successful_run_events demo "a.mp3" "v.mp4" "o.mp4" start).
  vm_compute. reflexivity.
Defined.

(** ** The window *)

Lemma substring_none n : forall s, substring n 0 s = EmptyString.
Proof.
  induction n as [|n IH]; intros [|c s]; simpl; auto.
Qed.

Lemma append_empty s : (s ++ EmptyString)%string = s.
Proof. induction s as [|c s IH]; simpl; [reflexivity | now rewrite IH]. Qed.

(** Deleting from the first index to [END] empties the entry. *)
Lemma delete_all text : Tk.delete 0 (Tk.END text) text = EmptyString.
Proof.
  unfold Tk.delete, Tk.END. destruct text as [|c text]; [reflexivity|].
  cbn [String.length Nat.leb]. rewrite Nat.sub_diag, !substring_none.
  reflexivity.
Qed.

(** Inserting at the first index into an entry just emptied leaves the
    inserted text alone. *)
Lemma insert_after_delete path text :
  Tk.insert 0 path (Tk.delete 0 (Tk.END text) text) = path.
Proof.
  rewrite delete_all. unfold Tk.insert. simpl. apply append_empty.
Qed.

(** X12.  [browse_file] replaces the text of the entry by what the
    dialog returns, whatever the entry held before: the chosen path
    alone, and the empty text when the dialog is cancelled. *)
Theorem browse_file_replaces_entry
        (user : dialog -> string) (entry file_type : string) :
  browse_file user entry file_type = user (dialog_of file_type).
Proof. apply insert_after_delete. Qed.

Lemma py_not_empty s : py_not s = true <-> s = EmptyString.
Proof. destruct s; simpl; split; congruence. Qed.

(** X13.  After the three fields were filled through [browse_file],
    [start_processing] starts the thread on [process_files] with
    exactly the three paths the dialogs returned, whatever the entries
    held before; if one of the dialogs was cancelled it shows the
    warning and starts nothing. *)
Theorem browse_then_start
        (env : Env) (user : dialog -> string)
        (audio_entry video_entry output_entry : string) :
  let audio_path := user (dialog_of "audio") in
  let video_path := user (dialog_of "video") in
  let output_path := user (dialog_of "output") in
  let pressed :=
    start_processing env
      (browse_file user audio_entry "audio")
      (browse_file user video_entry "video")
      (browse_file user output_entry "output") in
  (audio_path = EmptyString \/ video_path = EmptyString \/
   output_path = EmptyString ->
   pressed = showwarning "Missing Information" "Please select all file paths.")
  /\
  (audio_path <> EmptyString -> video_path <> EmptyString ->
   output_path <> EmptyString ->
   pressed = Thread (process_files env audio_path video_path output_path)).
Proof.
  intros audio_path video_path output_path pressed.
  unfold pressed, browse_file. rewrite !insert_after_delete.
  fold audio_path video_path output_path. unfold start_processing.
  split.
  - intros H.
    assert (E : py_not audio_path || py_not video_path
                || py_not output_path = true).
    { rewrite !orb_true_iff, !py_not_empty. tauto. }
    now rewrite E.
  - intros Ha Hv Ho.
    assert (E : py_not audio_path || py_not video_path
                || py_not output_path = false).
    { rewrite !orb_false_iff. repeat split;
        apply not_true_iff_false; rewrite py_not_empty; assumption. }
    now rewrite E.
Qed.

Lemma browse_then_start_witness :
  start_processing demo
    (browse_file (picks "take.mp4") "old.mp3" "audio")
    (browse_file (picks "take.mp4") EmptyString "video")
    (browse_file (picks "take.mp4") "out" "output") =
  Thread (process_files demo "take.mp4" "take.mp4" "take.mp4").
Proof.
  apply (proj2 (browse_then_start demo (picks "take.mp4")
                                  "old.mp3" EmptyString "out"));
    discriminate.
Defined.

(** A cancelled dialog empties a filled entry, and the start button
    then only warns. *)
Example cancel_then_start :
  browse_file cancels "song.mp3" "audio" = EmptyString /\
  start_processing demo (browse_file cancels "song.mp3" "audio")
                   "v.mp4" "o.mp4" =
  showwarning "Missing Information" "Please select all file paths.".
Proof. split; reflexivity. Qed.

(** ** Clips inside the video *)

Lemma planned_within env video ct idx :
  fair env ->
  (forall i, In i idx -> interval ct i <= vduration video) ->
  forall k,
    Forall (fun c => exists s e,
                c = VSubclip video s e /\ 0 <= s /\ s < e /\
                e <= vduration video)
           (planned env video ct idx k).
Proof.
  intros Hf. induction idx as [|i idx IH]; intros Hfit k; simpl;
    [constructor|].
  assert (Hrest : forall j, In j idx -> interval ct j <= vduration video)
    by (intros j Hj; apply Hfit; now right).
  destruct (positive_interval ct i) eqn:Hpos; [|now apply IH].
  apply positive_interval_true in Hpos.
  assert (Hi : interval ct i <= vduration video) by (apply Hfit; now left).
  destruct (Hf k) as [Hu0 Hu1].
  destruct (sampled_start_bounds env (vduration video) (interval ct i) k)
    as (Hs0 & _ & Hs2); try lra.
  constructor; [|now apply IH].
  specialize (Hs2 Hi).
  eexists _, _. split; [reflexivity|]. repeat split; lra.
Qed.

(** X14.  With draws in the unit interval: when no interval of the cut
    times is longer than the source video, every clip of a loop that
    ends without an exception is a non-empty range of the source video
    that starts at or after 0 and ends at or before the end of the
    video. *)
Theorem all_clips_within_video
        (env : Env) (video : vclip) (ct : list Q)
        (w w' : world) (clips : list vclip) :
  fair env ->
  (forall i, (i < length ct - 1)%nat -> interval ct i <= vduration video) ->
  make_clips env video ct w = (inr clips, w') ->
  Forall (fun c => exists s e,
              c = VSubclip video s e /\ 0 <= s /\ s < e /\
              e <= vduration video)
         clips.
Proof.
  intros Hf Hfit H. unfold make_clips in H.
  apply for_each_success in H; [|assumption]. simpl in H. subst clips.
  apply planned_within; [assumption|].
  intros i Hi. apply in_seq in Hi. apply Hfit. lia.
Qed.

Lemma all_clips_within_video_witness :
  Forall (fun c => exists s e,
              c = VSubclip demo_video s e /\ 0 <= s /\ s < e /\
              e <= vduration demo_video)
         (planned demo demo_video ten_second_cuts (seq 0 3) 0).
Proof.
  apply (all_clips_within_video
           demo demo_video ten_second_cuts start
           (snd (make_clips demo demo_video ten_second_cuts start))).
  - exact demo_fair.
  - intros i Hi. simpl in Hi.
    destruct i as [|[|[|i]]]; try lia; vm_compute; discriminate.
  - vm_compute. reflexivity.
Defined.
